(** * Client-side transfer-learning playground: the pipeline of HomeScreen.tsx

    A shallow embedding of the data model and of the five handlers of
    [frontend/app/screens/HomeScreen.tsx] ([onAddFolder], [onTrainHead],
    [onSelectTest], [onPredictBtn], [onClearAll]) together with the start-up
    effect, followed by the properties of the pipeline.

    Conventions of the embedding.
    - The React state of the component is the record [State]; a handler is a
      function from the state before the event to the state after it: the
      handlers are taken to run one at a time, each to its end on the state
      of the last render (an event that arrives while an [async] handler
      waits is taken after it).
    - A JavaScript object used as a dictionary ([Record<string, number>]) is
      a plain object: the finite map of its own properties, read and written
      through [readProp] and [writeProp], which account for the members that
      it inherits from [Object.prototype].
    - A JavaScript string is a [string]; the default [sort()] of an array of
      strings orders them by code units, which is [String.le].
    - A tensor is its shape and its flat data; numbers are rationals, on which
      [>] and [!==] are the comparisons of the source (no NaN).
    - TensorFlow.js, MobileNet and the browser's image decoder are
      collaborators: what they return is a field of [Env], of the loaded
      [MobileNet] or of the fitted [LayersModel], and each may throw.
    - [pushMsg] keeps the newest 200 lines; the clock prefix of a line is
      presentation and is left out. *)

From Stdlib Require Import Ascii String QArith.
From stdpp Require Import gmap strings list sorting pretty.

Local Open Scope string_scope.
Local Open Scope list_scope.
Local Open Scope nat_scope.

(* ------------------------------------------------------------------------- *)
(** ** Exceptions *)
(* ------------------------------------------------------------------------- *)

(** What a [try] block of the component can end with: one of the two
    [throw new Error(...)] of the source, or a rejection coming out of a
    collaborator, carried with its text. *)
Inductive error : Type :=
  | FeatureDimUnknown
      (* throw new Error("Could not infer feature dimension.") *)
  | LabelMappingInconsistent
      (* throw new Error("Label mapping is inconsistent with predictions.") *)
  | Rejected (text : string).

(** [e?.message || String(e)] *)
Definition errorText (e : error) : string :=
  match e with
  | FeatureDimUnknown => "Could not infer feature dimension."
  | LabelMappingInconsistent => "Label mapping is inconsistent with predictions."
  | Rejected text => text
  end.

Definition result (A : Type) : Type := error + A.

Definition ok {A} (a : A) : result A := inr a.
Definition throw {A} (e : error) : result A := inl e.

Definition bind {A B} (r : result A) (k : A → result B) : result B :=
  match r with
  | inl e => inl e
  | inr a => k a
  end.

Notation "'let!' x := r 'in' k" := (bind r (λ x, k))
  (at level 10, x pattern, r at level 100, k at level 200).

(** What a collaborator (the browser, TensorFlow.js, MobileNet) answers: a
    value, or a rejection with its text. *)
Definition answer (A : Type) : Type := string + A.

(** A call into a collaborator from inside a [try]: its rejection is thrown
    on. *)
Definition call {A} (a : answer A) : result A :=
  match a with
  | inl text => throw (Rejected text)
  | inr v => ok v
  end.

(* ------------------------------------------------------------------------- *)
(** ** Strings and the label of a path *)
(* ------------------------------------------------------------------------- *)

(** [s.split("/")]: never empty, and [[""]] on the empty string. *)
Fixpoint split_slash (s : string) : list string :=
  match s with
  | EmptyString => [""]
  | String c rest =>
      if Ascii.eqb c "/"%char then "" :: split_slash rest
      else match split_slash rest with
           | [] => [String c ""]
           | w :: ws => String c w :: ws
           end
  end.

(** [Boolean(s)] on a string: false on the empty string only. *)
Definition truthy (s : string) : bool :=
  match s with
  | EmptyString => false
  | String _ _ => true
  end.

(** [s.startsWith(p)] *)
Fixpoint startsWith (p s : string) : bool :=
  match p, s with
  | EmptyString, _ => true
  | String a p', String b s' => Ascii.eqb a b && startsWith p' s'
  | String _ _, EmptyString => false
  end.

(** [const parts = rel.split("/").filter(Boolean);
     const label = parts.length >= 2 ? parts[parts.length - 2] : "root";] *)
Definition labelOfPath (rel : string) : string :=
  let parts := List.filter truthy (split_slash rel) in
  if decide (2 ≤ length parts)
  then default "root" (parts !! (length parts - 2))
  else "root".

(* ------------------------------------------------------------------------- *)
(** ** Plain objects used as dictionaries *)
(* ------------------------------------------------------------------------- *)

(** The properties that every plain object inherits from [Object.prototype]:
    eleven methods and the accessor [__proto__]. *)
Definition protoMembers : list string :=
  ["constructor"; "hasOwnProperty"; "isPrototypeOf"; "propertyIsEnumerable";
   "toLocaleString"; "toString"; "valueOf"; "__defineGetter__";
   "__defineSetter__"; "__lookupGetter__"; "__lookupSetter__"; "__proto__"].

(** What [obj[key]] reads on a plain object: an own property, else a member
    inherited from [Object.prototype] (a function, or the prototype itself
    under [__proto__]), else [undefined]. *)
Inductive Read (A : Type) : Type :=
  | Own (v : A)
  | Inherited
  | Undefined.

Arguments Own {A} v.
Arguments Inherited {A}.
Arguments Undefined {A}.

(** [obj[key]], on the plain object whose own properties are [m]. *)
Definition readProp {A} (m : gmap string A) (key : string) : Read A :=
  match m !! key with
  | Some v => Own v
  | None => if decide (key ∈ protoMembers) then Inherited else Undefined
  end.

(** [obj[key] = v] for a number or a string [v], on a plain object without an
    own property [__proto__] (the dictionaries of the component start from
    [{}] and are filled by such writes, or spread from one another): the own
    property is written, except under the key [__proto__], where the
    inherited setter is called and ignores a value that is not an object. *)
Definition writeProp {A} (key : string) (v : A) (m : gmap string A)
    : gmap string A :=
  if decide (key = "__proto__") then m else <[key := v]> m.

(** What the dictionary of label counts can hold under a key: a number, or
    the string that [+ 1] makes of a value that is not a number. *)
Inductive CountValue : Type :=
  | Num (k : nat)
  | Text (s : string).

(* ------------------------------------------------------------------------- *)
(** ** The label index *)
(* ------------------------------------------------------------------------- *)

(** [new Set(xs)] followed by [Array.from]: the distinct elements in the order
    of their first occurrence. [seen] is the set under construction. *)
Fixpoint setFrom (seen : list string) (xs : list string) : list string :=
  match xs with
  | [] => seen
  | x :: rest =>
      if decide (x ∈ seen) then setFrom seen rest
      else setFrom (seen ++ [x]) rest
  end.

(** [Array.prototype.sort()] without a comparator, on strings. *)
Definition sortStrings (xs : list string) : list string :=
  merge_sort String.le xs.

(** [labelSet.forEach((lab, idx) => { label2idx[lab] = idx; })], with [idx]
    starting at [from]. *)
Fixpoint assignIndices (from : nat) (labs : list string)
    (label2idx : gmap string nat) : gmap string nat :=
  match labs with
  | [] => label2idx
  | lab :: rest => assignIndices (S from) rest (writeProp lab from label2idx)
  end.

(** Lines 211-218 of the source, from the labels of the training files:
    [labelSet], [label2idx]. *)
Definition labelSetOf (labels : list string) : list string :=
  sortStrings (setFrom [] labels).

Definition label2idxOf (labelSet : list string) : gmap string nat :=
  assignIndices 0 labelSet ∅.

(* ------------------------------------------------------------------------- *)
(** ** Tensors *)
(* ------------------------------------------------------------------------- *)

Record Tensor : Type := mkTensor {
  shape : list nat;
  values : list Q
}.

Definition sizeOfShape (sh : list nat) : nat := foldr Nat.mul 1 sh.

(** [t.reshape(sh)]: the same data under another shape of the same size. *)
Definition reshape (t : Tensor) (sh : list nat) : result Tensor :=
  if decide (sizeOfShape sh = length (values t))
  then ok (mkTensor sh (values t))
  else throw (Rejected "Size(s) must match the shape").

(** [emb.shape[emb.shape.length - 1]] *)
Definition lastDim (t : Tensor) : option nat := last (shape t).

(** The row of shape [[1, depth]] with 1 at [idx] and 0 elsewhere (0
    everywhere when [idx] is not below [depth]). *)
Definition oneHotRow (idx depth : nat) : Tensor :=
  mkTensor [1; depth]
    ((λ j, if decide (j = idx) then 1%Q else 0%Q) <$> seq 0 depth).

(** [t.squeeze()]: the dimensions of size 1 are dropped. *)
Definition squeeze (t : Tensor) : Tensor :=
  mkTensor (List.filter (λ d, negb (d =? 1)) (shape t)) (values t).

(* ------------------------------------------------------------------------- *)
(** ** Files, models and the component state *)
(* ------------------------------------------------------------------------- *)

(** A [File] of the browser: its name, its path below the picked folder (empty
    when it was not picked through a folder), its MIME type and its bytes
    (by identity). *)
Record File : Type := mkFile {
  name : string;
  webkitRelativePath : string;
  type : string;
  bytes : nat
}.

(** [type TrainFile = { file: File; label: string; uri: string }] *)
Record TrainFile : Type := mkTrainFile {
  file : File;
  label : string;
  uri : string
}.

(** An entry of [trainPreviews]: [{ uri, label }]. *)
Record Preview : Type := mkPreview {
  preview_uri : string;
  preview_label : string
}.

(** [type Pred = { label: string; confidences: Record<string, number> } | null] *)
Record Pred : Type := mkPred {
  pred_label : string;
  confidences : gmap string Q
}.

(** A decoded [HTMLImageElement], by identity. *)
Definition Image : Type := nat.

(** The loaded base model: [net.infer(img, true)] gives the embedding. *)
Record MobileNet : Type := mkMobileNet {
  infer : Image → answer Tensor
}.

(** The head, a [tf.LayersModel]: its forward pass, and the two dynamic
    properties that [onTrainHead] attaches to the instance. *)
Record LayersModel : Type := mkLayersModel {
  predict : Tensor → answer Tensor;
  __label2idx : option (gmap string nat);
  __idx2label : option (list string)
}.

(** The collaborators. *)
Record Env : Type := mkEnv {
  isWeb : bool;
  (* tf.setBackend("webgl"), tf.ready(), then tf.getBackend() *)
  tfReady : answer string;
  (* mobilenet.load({ version: 2, alpha: 1.0 }) *)
  mobilenetLoad : answer MobileNet;
  (* fileToImage(file): the image once loaded, or the rejection of onerror *)
  fileToImage : File → answer Image;
  (* tf.stack(tensors) *)
  tfStack : list Tensor → answer Tensor;
  (* tf.sequential() with dense(featureDim -> 128, relu), dropout(0.3),
     dense(numClasses, softmax); compile(adam(0.001), categoricalCrossentropy);
     fit(xTrain, yTrain, { epochs, batchSize, shuffle: true }): the lines that
     onEpochEnd pushes, and the forward pass of the fitted model *)
  tfFit : ∀ (featureDim numClasses : nat) (xTrain yTrain : Tensor)
            (batchSize epochs : nat),
          list string * answer (Tensor → answer Tensor);
  (* tf.oneHot(tf.tensor1d([v], "int32"), depth), of shape [1, depth], for a
     v that is not a number and a depth of 2 or more *)
  tfOneHotOfOther : nat → Tensor;
  (* String(f) for the built-in function f that a plain object inherits under
     a key: the text is the engine's *)
  functionText : string → string
}.

(** The [useState] cells of [HomeScreen], and the counter behind
    [URL.createObjectURL]. *)
Record State : Type := mkState {
  ready : bool;
  loading : option string;
  messages : list string;
  net : option MobileNet;
  trainFiles : list TrainFile;
  labelCounts : gmap string CountValue;
  headModel : option LayersModel;
  trainPreviews : list Preview;
  testPreview : option string;
  testFile : option File;
  pred : option Pred;
  blobCounter : nat
}.

Definition initialState : State :=
  mkState false None [] None [] ∅ None [] None None None 0.

Definition setReady (v : bool) (s : State) : State :=
  mkState v (loading s) (messages s) (net s) (trainFiles s) (labelCounts s)
    (headModel s) (trainPreviews s) (testPreview s) (testFile s) (pred s)
    (blobCounter s).

Definition setLoading (v : option string) (s : State) : State :=
  mkState (ready s) v (messages s) (net s) (trainFiles s) (labelCounts s)
    (headModel s) (trainPreviews s) (testPreview s) (testFile s) (pred s)
    (blobCounter s).

Definition setMessages (f : list string → list string) (s : State) : State :=
  mkState (ready s) (loading s) (f (messages s)) (net s) (trainFiles s)
    (labelCounts s) (headModel s) (trainPreviews s) (testPreview s)
    (testFile s) (pred s) (blobCounter s).

Definition setNet (v : option MobileNet) (s : State) : State :=
  mkState (ready s) (loading s) (messages s) v (trainFiles s) (labelCounts s)
    (headModel s) (trainPreviews s) (testPreview s) (testFile s) (pred s)
    (blobCounter s).

Definition setTrainFiles (f : list TrainFile → list TrainFile) (s : State)
    : State :=
  mkState (ready s) (loading s) (messages s) (net s) (f (trainFiles s))
    (labelCounts s) (headModel s) (trainPreviews s) (testPreview s)
    (testFile s) (pred s) (blobCounter s).

Definition setLabelCounts (v : gmap string CountValue) (s : State) : State :=
  mkState (ready s) (loading s) (messages s) (net s) (trainFiles s) v
    (headModel s) (trainPreviews s) (testPreview s) (testFile s) (pred s)
    (blobCounter s).

Definition setHeadModel (v : option LayersModel) (s : State) : State :=
  mkState (ready s) (loading s) (messages s) (net s) (trainFiles s)
    (labelCounts s) v (trainPreviews s) (testPreview s) (testFile s) (pred s)
    (blobCounter s).

Definition setTrainPreviews (f : list Preview → list Preview) (s : State)
    : State :=
  mkState (ready s) (loading s) (messages s) (net s) (trainFiles s)
    (labelCounts s) (headModel s) (f (trainPreviews s)) (testPreview s)
    (testFile s) (pred s) (blobCounter s).

Definition setTestPreview (v : option string) (s : State) : State :=
  mkState (ready s) (loading s) (messages s) (net s) (trainFiles s)
    (labelCounts s) (headModel s) (trainPreviews s) v (testFile s) (pred s)
    (blobCounter s).

Definition setTestFile (v : option File) (s : State) : State :=
  mkState (ready s) (loading s) (messages s) (net s) (trainFiles s)
    (labelCounts s) (headModel s) (trainPreviews s) (testPreview s) v (pred s)
    (blobCounter s).

Definition setPred (v : option Pred) (s : State) : State :=
  mkState (ready s) (loading s) (messages s) (net s) (trainFiles s)
    (labelCounts s) (headModel s) (trainPreviews s) (testPreview s)
    (testFile s) v (blobCounter s).

Definition setBlobCounter (v : nat) (s : State) : State :=
  mkState (ready s) (loading s) (messages s) (net s) (trainFiles s)
    (labelCounts s) (headModel s) (trainPreviews s) (testPreview s)
    (testFile s) (pred s) v.

(** [setMessages((m) => [`[${logTime()}] ${s}`, ...m].slice(0, 200))] *)
Definition pushMsg (line : string) (s : State) : State :=
  setMessages (λ m, take 200 (line :: m)) s.

(** The lines of a list pushed one after the other, the first one first. *)
Definition pushMsgs (lines : list string) (s : State) : State :=
  foldl (λ acc line, pushMsg line acc) s lines.

(** [URL.createObjectURL(f)]: a URL that the browser never handed out
    before. The browser's record of the URLs handed out is kept as a counter
    next to the component state; it numbers the URLs that the component
    stores (those that [fileToImage] makes for decoding are revoked there
    and never stored). *)
Definition createObjectURL (counter : nat) : string :=
  "blob:" +:+ pretty counter.

(* ------------------------------------------------------------------------- *)
(** ** Start-up effect *)
(* ------------------------------------------------------------------------- *)

(** The [useEffect] that prepares TensorFlow.js and loads MobileNet. *)
Definition onMount (env : Env) (s : State) : State :=
  let s1 := setLoading (Some "Preparing TensorFlow.js backend...") s in
  match call (tfReady env) with
  | inl e => pushMsg ("[ERROR] " +:+ errorText e) (setLoading None s1)
  | inr backend =>
      let s2 := pushMsg ("TFJS backend: " +:+ backend) s1 in
      let s3 := setLoading (Some "Loading MobileNet (pretrained base)...") s2 in
      match call (mobilenetLoad env) with
      | inl e => pushMsg ("[ERROR] " +:+ errorText e) (setLoading None s3)
      | inr model =>
          pushMsg
            "Ready. Import a folder as /<label>/<image>. Then train the head model and run predictions."
            (setLoading None (setReady true (setNet (Some model) s3)))
      end
  end.

(* ------------------------------------------------------------------------- *)
(** ** Folder import: [onAddFolder] *)
(* ------------------------------------------------------------------------- *)

(** [f.type && f.type.startsWith("image/")] *)
Definition isImageFile (f : File) : bool :=
  truthy (type f) && startsWith "image/" (type f).

(** [(f as any).webkitRelativePath || f.name] *)
Definition relativePathOf (f : File) : string :=
  if truthy (webkitRelativePath f) then webkitRelativePath f else name f.

(** [(counts[label] ?? 0) + 1]: one more than a number, 1 for [undefined];
    on anything else [+] concatenates, with the text of the function that
    the object inherits under the key, or with "[object Object]" for the
    prototype itself. *)
Definition plusOne (env : Env) (key : string) (r : Read CountValue)
    : CountValue :=
  match r with
  | Own (Num k) => Num (k + 1)
  | Own (Text s) => Text (s +:+ "1")
  | Inherited =>
      if decide (key = "__proto__") then Text "[object Object]1"
      else Text (functionText env key +:+ "1")
  | Undefined => Num 1
  end.

(** [counts[label] = (counts[label] ?? 0) + 1] *)
Definition bumpCount (env : Env) (key : string) (counts : gmap string CountValue)
    : gmap string CountValue :=
  writeProp key (plusOne env key (readProp counts key)) counts.

(** The locals of the scanning loop: [newTrain], [previews], [counts],
    [added], and the URL counter of the browser. *)
Record Scan : Type := mkScan {
  newTrain : list TrainFile;
  previews : list Preview;
  counts : gmap string CountValue;
  added : nat;
  scanBlob : nat
}.

(** One turn of [for (let i = 0; i < files.length; i++)] per file. *)
Fixpoint scanFiles (env : Env) (files : list File) (acc : Scan) : Scan :=
  match files with
  | [] => acc
  | f :: rest =>
      if negb (isImageFile f) then scanFiles env rest acc
      else
        let label := labelOfPath (relativePathOf f) in
        let uri := createObjectURL (scanBlob acc) in
        scanFiles env rest
          (mkScan (newTrain acc ++ [mkTrainFile f label uri])
                  (previews acc ++ [mkPreview uri label])
                  (bumpCount env label (counts acc))
                  (S (added acc))
                  (S (scanBlob acc)))
  end.

Definition onAddFolder (env : Env) (files : option (list File)) (s : State)
    : State :=
  match files with
  | None => s
  | Some files =>
      if negb (isWeb env)
      then pushMsg "Folder import is only supported on web." s
      else
        let s1 := setLoading (Some "Scanning folder...") s in
        let sc :=
          scanFiles env files (mkScan [] [] (labelCounts s) 0 (blobCounter s)) in
        let s2 := setBlobCounter (scanBlob sc) s1 in
        let s3 :=
          if added sc =? 0
          then pushMsg "No images found in the selected folder." s2
          else
            pushMsg ("Imported " +:+ pretty (added sc) +:+ " training image(s).")
              (setLabelCounts (counts sc)
                (setTrainPreviews (λ prev, take 200 (previews sc ++ prev))
                  (setTrainFiles (λ prev, prev ++ newTrain sc) s2))) in
        setLoading None s3
  end.

(* ------------------------------------------------------------------------- *)
(** ** Training the head: [onTrainHead] *)
(* ------------------------------------------------------------------------- *)

(** [tf.tidy(() => { const emb = net.infer(img, true);
       return emb.reshape([emb.shape[emb.shape.length - 1]]); })] *)
Definition embed1D (n : MobileNet) (img : Image) : result Tensor :=
  let! emb := call (infer n img) in
  match lastDim emb with
  | None => throw (Rejected "Size(s) must match the shape")
  | Some d => reshape emb [d]
  end.

(** [tf.oneHot(tf.tensor1d([idx], "int32"), numClasses)] for what was read
    as [idx]: the call throws for a depth below 2; for a number the tensor is
    the one-hot row, and for anything else what the runtime makes of it. *)
Definition oneHot (env : Env) (idx : Read nat) (numClasses : nat)
    : result Tensor :=
  if numClasses <? 2
  then throw (Rejected ("Error in oneHot: depth must be >=2, but it is "
                          +:+ pretty numClasses))
  else ok (match idx with
           | Own i => oneHotRow i numClasses
           | Inherited | Undefined => tfOneHotOfOther env numClasses
           end).

(** [const idx = label2idx[label];
     const y = tf.oneHot(tf.tensor1d([idx], "int32"), numClasses).squeeze();] *)
Definition oneHotOfLabel (env : Env) (label2idx : gmap string nat)
    (numClasses : nat) (lab : string) : result Tensor :=
  let! row := oneHot env (readProp label2idx lab) numClasses in
  ok (squeeze row).

(** The locals that the extraction loop updates: [xs], [ys], [featureDim]. *)
Record Extracted : Type := mkExtracted {
  xs : list Tensor;
  ys : list Tensor;
  featureDim : option nat
}.

(** [for (let i = 0; i < trainFiles.length; i++) { ... }], lines 228-255; the
    [await tf.nextFrame()] every sixteenth turn only yields to the browser. *)
Fixpoint extractLoop (env : Env) (n : MobileNet) (label2idx : gmap string nat)
    (numClasses : nat) (files : list TrainFile) (acc : Extracted)
    : result Extracted :=
  match files with
  | [] => ok acc
  | t :: rest =>
      let! img := call (fileToImage env (file t)) in
      let! feat := embed1D n img in
      let featureDim' :=
        match featureDim acc with
        | None => shape feat !! 0
        | Some d => Some d
        end in
      let! y := oneHotOfLabel env label2idx numClasses (label t) in
      extractLoop env n label2idx numClasses rest
        (mkExtracted (xs acc ++ [feat]) (ys acc ++ [y]) featureDim')
  end.

(** The body of the [try] of [onTrainHead]: the lines pushed on the way, and
    the model that [setHeadModel] receives, or what was thrown. *)
Definition trainHeadTry (env : Env) (n : MobileNet) (files : list TrainFile)
    : list string * result LayersModel :=
  let labelSet := labelSetOf (label <$> files) in
  let label2idx := label2idxOf labelSet in
  let numClasses := length labelSet in
  let announce :=
    "Training head model on " +:+ pretty (length files) +:+ " example(s), "
      +:+ pretty numClasses +:+ " class(es)..." in
  match extractLoop env n label2idx numClasses files (mkExtracted [] [] None) with
  | inl e => ([announce], inl e)
  | inr ex =>
      match featureDim ex with
      | None => ([announce], throw FeatureDimUnknown)
      | Some d =>
          match call (tfStack env (xs ex)) with
          | inl e => ([announce], inl e)
          | inr xTrain =>
              match call (tfStack env (ys ex)) with
              | inl e => ([announce], inl e)
              | inr yTrain =>
                  let batchSize := 16 `min` length files in
                  let epochs := 20 in
                  let '(epochLines, fitted) :=
                    tfFit env d numClasses xTrain yTrain batchSize epochs in
                  (announce :: epochLines,
                   let! forward := call fitted in
                   ok (mkLayersModel forward (Some label2idx) (Some labelSet)))
              end
          end
      end
  end.

Definition onTrainHead (env : Env) (s : State) : State :=
  match net s with
  | None => pushMsg "Base model (MobileNet) is not ready yet." s
  | Some n =>
      if length (trainFiles s) =? 0
      then pushMsg "No training images. Please import a folder first." s
      else
        let s1 :=
          setHeadModel None
            (setPred None
              (setLoading (Some "Extracting features & training head model...") s)) in
        let '(lines, outcome) := trainHeadTry env n (trainFiles s) in
        let s2 := pushMsgs lines s1 in
        let s3 :=
          match outcome with
          | inr model =>
              pushMsg "Training finished. You can now run predictions."
                (setHeadModel (Some model) s2)
          | inl e => pushMsg ("[ERROR] train: " +:+ errorText e) s2
          end in
        setLoading None s3
  end.

(* ------------------------------------------------------------------------- *)
(** ** Test image and prediction: [onSelectTest], [onPredictBtn] *)
(* ------------------------------------------------------------------------- *)

Definition onSelectTest (f : option File) (s : State) : State :=
  let s1 := setTestFile f (setPred None s) in
  match f with
  | Some _ =>
      setBlobCounter (S (blobCounter s))
        (setTestPreview (Some (createObjectURL (blobCounter s))) s1)
  | None => setTestPreview None s1
  end.

(** [tf.tidy(() => { const emb = net.infer(img, true);
       return emb.reshape([1, d]).as2D(1, d); })] with [d] the last
    dimension of [emb]. *)
Definition embed2D (n : MobileNet) (img : Image) : result Tensor :=
  let! emb := call (infer n img) in
  match lastDim emb with
  | None => throw (Rejected "Size(s) must match the shape")
  | Some d => reshape emb [1; d]
  end.

(** [a > b] on two array reads; a read past the end is [undefined], and a
    comparison with [undefined] is false. *)
Definition gtNumber (a b : option Q) : bool :=
  match a, b with
  | Some x, Some y => negb (Qle_bool x y)
  | _, _ => false
  end.

(** [let bestIdx = 0;
     for (let i = 1; i < probs.length; i++)
       if (probs[i] > probs[bestIdx]) bestIdx = i;] *)
Definition bestIndex (probs : list Q) : nat :=
  foldl (λ bestIdx i, if gtNumber (probs !! i) (probs !! bestIdx) then i else bestIdx)
        0 (seq 1 (length probs - 1)).

(** [labelSet.forEach((lab, idx) => { confidences[lab] = probs[idx]; })], with
    [idx] starting at [from]. The guard before it makes every [probs[idx]] a
    number. *)
Fixpoint fillConfidences (from : nat) (labelSet : list string) (probs : list Q)
    (conf : gmap string Q) : gmap string Q :=
  match labelSet with
  | [] => conf
  | lab :: rest =>
      fillConfidences (S from) rest probs
        (match probs !! from with
         | Some p => writeProp lab p conf
         | None => conf
         end)
  end.

(** The body of the [try] of [onPredictBtn]: the prediction that [setPred]
    receives, or what was thrown. *)
Definition predictTry (env : Env) (n : MobileNet) (head : LayersModel)
    (test : File) : result Pred :=
  let! img := call (fileToImage env test) in
  let! feat := embed2D n img in
  let! probsTensor := call (predict head feat) in
  let probs := values probsTensor in
  let labelSet := default [] (__idx2label head) in
  if (length labelSet =? 0) || negb (length probs =? length labelSet)
  then throw LabelMappingInconsistent
  else
    let conf := fillConfidences 0 labelSet probs ∅ in
    let topLabel := default "" (labelSet !! bestIndex probs) in
    ok (mkPred topLabel conf).

Definition onPredictBtn (env : Env) (s : State) : State :=
  match net s with
  | None => pushMsg "Base model is not ready yet." s
  | Some n =>
      match headModel s with
      | None =>
          pushMsg "Head model is not trained yet. Click 'Train head model' first." s
      | Some head =>
          match testFile s with
          | None => pushMsg "Pick a test image first." s
          | Some test =>
              let s1 := setPred None (setLoading (Some "Running inference...") s) in
              let s2 :=
                match predictTry env n head test with
                | inr p =>
                    pushMsg ("Prediction: " +:+ pred_label p) (setPred (Some p) s1)
                | inl e => pushMsg ("[ERROR] predict: " +:+ errorText e) s1
                end in
              setLoading None s2
          end
      end
  end.

(* ------------------------------------------------------------------------- *)
(** ** [onClearAll] *)
(* ------------------------------------------------------------------------- *)

(** [headModel.dispose()] frees the weights of the head; the cell is then set
    to [null], so nothing reads the disposed model afterwards. *)
Definition onClearAll (s : State) : State :=
  pushMsg "Cleared training data, test image, and head model."
    (setHeadModel None
      (setPred None
        (setTestPreview None
          (setTestFile None
            (setLabelCounts ∅
              (setTrainPreviews (λ _, [])
                (setTrainFiles (λ _, []) s))))))).

(* ------------------------------------------------------------------------- *)
(** ** Sessions *)
(* ------------------------------------------------------------------------- *)

(** What the presentation layer can make happen. *)
Inductive Event : Type :=
  | Mount
  | AddFolder (files : option (list File))
  | TrainHead
  | SelectTest (f : option File)
  | PredictBtn
  | ClearAll.

Definition step (env : Env) (s : State) (ev : Event) : State :=
  match ev with
  | Mount => onMount env s
  | AddFolder files => onAddFolder env files s
  | TrainHead => onTrainHead env s
  | SelectTest f => onSelectTest f s
  | PredictBtn => onPredictBtn env s
  | ClearAll => onClearAll s
  end.

(** The state after a session: the events in order, from the first render. *)
Definition run (env : Env) (evs : list Event) : State :=
  foldl (step env) initialState evs.

(** An import of a folder. *)
Definition isImportEvent (ev : Event) : bool :=
  match ev with
  | AddFolder _ => true
  | _ => false
  end.

(** [snapshotLabelCounts()]: what the label badges display. *)
Definition snapshotLabelCounts (s : State) : gmap string CountValue :=
  labelCounts s.

(** The number of held training examples carrying a label. *)
Definition examplesWith (lab : string) (files : list TrainFile) : nat :=
  length (List.filter (λ t, bool_decide (label t = lab)) files).

(* ------------------------------------------------------------------------- *)
(** ** A concrete session, used to run the handlers *)
(* ------------------------------------------------------------------------- *)

(** A base model whose embedding of image [k] has [k] entries: the dimension
    of the feature vector changes from one image to the next. *)
Definition raggedNet : MobileNet :=
  mkMobileNet (λ img, inr (mkTensor [1; img] (replicate img 1%Q))).

(** A base model with embeddings of dimension 2. *)
Definition demoNet : MobileNet :=
  mkMobileNet (λ img, inr (mkTensor [1; 2] [inject_Z (Z.of_nat img); 1%Q])).

(** A forward pass that gives the same two probabilities on every input. *)
Definition demoForward (probs : list Q) (feat : Tensor) : answer Tensor :=
  inr (mkTensor [1; length probs] probs).

(** The text of a built-in function of [Object.prototype] in V8:
    [constructor] is the function [Object]. *)
Definition demoFunctionText (key : string) : string :=
  "function " +:+ (if decide (key = "constructor") then "Object" else key)
    +:+ "() { [native code] }".

(** A browser whose decoder rejects the files without bytes, and a runtime
    that refuses to stack tensors of different shapes, as tf.stack does,
    fits a head answering [probs], and gives a row of zeros for an index
    that is not a number. *)
Definition demoEnv (base : MobileNet) (probs : list Q) : Env :=
  mkEnv true (inr "webgl") (inr base)
    (λ f, if bytes f =? 0 then inl "[object Event]" else inr (bytes f))
    (λ ts, match ts with
           | [] => inl "Pass at least one tensor to tf.stack"
           | t :: rest =>
               if forallb (λ u, bool_decide (shape u = shape t)) rest
               then inr (mkTensor (length ts :: shape t) (concat (values <$> ts)))
               else inl "All tensors passed to stack must have matching shapes"
           end)
    (λ _ _ _ _ _ _, ([], inr (demoForward probs)))
    (λ depth, mkTensor [1; depth] (replicate depth 0%Q))
    demoFunctionText.

Definition catFile : File := mkFile "a.png" "data/cats/a.png" "image/png" 2.
Definition dogFile : File := mkFile "b.png" "data/dogs/b.png" "image/png" 3.
Definition birdFile : File := mkFile "c.jpg" "data/birds/c.jpg" "image/jpeg" 4.
Definition brokenFile : File := mkFile "d.png" "data/dogs/d.png" "image/png" 0.
Definition notesFile : File := mkFile "notes.txt" "data/cats/notes.txt" "text/plain" 6.
Definition testImage : File := mkFile "q.png" "" "image/png" 7.
Definition protoFile : File := mkFile "p.png" "data/__proto__/p.png" "image/png" 8.
Definition constructorFile : File :=
  mkFile "k.png" "data/constructor/k.png" "image/png" 9.

(** A head whose label index is [cats, dogs], as a training run on a cat and
    a dog leaves it. *)
Definition catsDogsHead : LayersModel :=
  mkLayersModel (demoForward [(1 # 4)%Q; (3 # 4)%Q])
    (Some (label2idxOf ["cats"; "dogs"])) (Some ["cats"; "dogs"]).

(** The browser of the session below: the head it fits answers 1/4, 3/4. *)
Definition demoBrowser : Env := demoEnv demoNet [(1 # 4)%Q; (3 # 4)%Q].

(** A session that imports a cat and a dog (and a text file), trains a head
    and picks a test image. *)
Definition importAndTrain : list Event :=
  [Mount; AddFolder (Some [catFile; notesFile; dogFile]); TrainHead;
   SelectTest (Some testImage)].

Definition trainedSession : State := run demoBrowser importAndTrain.

(** The same session after a further import, of a file that cannot be
    decoded. *)
Definition sessionWithBrokenFile : State :=
  onAddFolder demoBrowser (Some [brokenFile]) trainedSession.

(** The same session after a clear, the import of a bird and a new pick of
    the test image. *)
Definition sessionAfterClear : State :=
  foldl (step demoBrowser) trainedSession
    [ClearAll; AddFolder (Some [birdFile]); SelectTest (Some testImage)].

(** A browser whose base model gives vectors of changing dimension, and the
    session that imports a cat and a dog in it. *)
Definition raggedBrowser : Env := demoEnv raggedNet [(1 # 4)%Q; (3 # 4)%Q].

Definition raggedSession : State :=
  run raggedBrowser [Mount; AddFolder (Some [catFile; dogFile])].

(** A browser whose fitted head answers three probabilities, and the head
    that the same session trains on its two labels there. *)
Definition mismatchBrowser : Env :=
  demoEnv demoNet [(1 # 3)%Q; (1 # 3)%Q; (1 # 3)%Q].

Definition threeWayHead : LayersModel :=
  mkLayersModel (demoForward [(1 # 3)%Q; (1 # 3)%Q; (1 # 3)%Q])
    (Some (label2idxOf ["cats"; "dogs"])) (Some ["cats"; "dogs"]).

(** A session that imports one image from each of the folders [constructor],
    [__proto__] and [cats]. *)
Definition sessionWithInheritedNames : State :=
  run demoBrowser [Mount; AddFolder (Some [constructorFile; protoFile; catFile])].

(** A browser whose fitted head answers 3/4, 1/4, and the session that
    imports the folders [__proto__] and [cats] in it, trains a head and picks
    a test image. *)
Definition protoBrowser : Env := demoEnv demoNet [(3 # 4)%Q; (1 # 4)%Q].

Definition protoSession : State :=
  run protoBrowser
    [Mount; AddFolder (Some [protoFile; catFile]); TrainHead;
     SelectTest (Some testImage)].

Definition protoHead : LayersModel :=
  mkLayersModel (demoForward [(3 # 4)%Q; (1 # 4)%Q])
    (Some (label2idxOf ["__proto__"; "cats"])) (Some ["__proto__"; "cats"]).

(* ------------------------------------------------------------------------- *)
(** ** Notions used in the statements *)
(* ------------------------------------------------------------------------- *)


(** No slash occurs in a segment. *)
Fixpoint slashFree (s : string) : bool :=
  match s with
  | EmptyString => true
  | String c rest => negb (Ascii.eqb c "/"%char) && slashFree rest
  end.


(** A count as a dictionary entry: no entry for zero. *)
Definition countEntry (n : nat) : option CountValue :=
  match n with
  | 0 => None
  | S _ => Some (Num n)
  end.

(** The number that a badge shows for a label, 0 without a badge; nothing
    when the entry is not a number. *)
Definition numberAt (m : gmap string CountValue) (lab : string) : option nat :=
  match m !! lab with
  | None => Some 0
  | Some (Num k) => Some k
  | Some (Text _) => None
  end.

(** The training example and the preview that an image file of a batch gives
    rise to, when the browser hands out its URL at [counter]. *)
Definition trainFileOf (counter : nat) (f : File) : TrainFile :=
  mkTrainFile f (labelOfPath (relativePathOf f)) (createObjectURL counter).

Definition previewOf (t : TrainFile) : Preview := mkPreview (uri t) (label t).

(** The training examples of the image files [imgs] of a batch, in order. *)
Fixpoint trainFilesOf (counter : nat) (imgs : list File) : list TrainFile :=
  match imgs with
  | [] => []
  | f :: rest => trainFileOf counter f :: trainFilesOf (S counter) rest
  end.

(** The examples that a batch contributes, from the state it meets: none off
    the web, where the import is refused. *)
Definition imported (env : Env) (files : list File) (s : State)
    : list TrainFile :=
  if isWeb env
  then trainFilesOf (blobCounter s) (List.filter isImageFile files)
  else [].

(** The Feature Extractor Adapter on a stored file: decode, then embed. *)
Definition featureOf (env : Env) (n : MobileNet) (f : File) : result Tensor :=
  let! img := call (fileToImage env f) in
  embed1D n img.

(** The dimension of a feature vector: [feat.shape[0]]. *)
Definition dimOf (feat : Tensor) : option nat := shape feat !! 0.

(** One more example counted under each label of [labs], in order, the way
    the scanning loop counts. *)
Definition countLabels (env : Env) (labs : list string)
    (m : gmap string CountValue) : gmap string CountValue :=
  foldl (λ acc lab, bumpCount env lab acc) m labs.

(** How often a label occurs in a list of labels. *)
Definition occurrences (lab : string) (labs : list string) : nat :=
  length (List.filter (λ l, bool_decide (l = lab)) labs).

(** The head that a session holds is one that [onTrainHead] built: both
    dynamic properties are set, from a non-empty sorted list of distinct
    labels. *)
Definition headBuilt (h : LayersModel) : Prop :=
  ∃ labelSet,
    __idx2label h = Some labelSet ∧
    __label2idx h = Some (label2idxOf labelSet) ∧
    labelSet ≠ [] ∧ NoDup labelSet ∧ Sorted String.le labelSet.

(** The vector has its largest entry at [best], and no entry before [best]
    is as large. *)
Definition firstMaximum (probs : list Q) (best : nat) : Prop :=
  ∃ top, probs !! best = Some top ∧
    (∀ j q, probs !! j = Some q → (q <= top)%Q) ∧
    (∀ j q, j < best → probs !! j = Some q → (q < top)%Q).

(** The state of the arg-max loop before turn [k]: [bestIdx] is the first
    maximum of the entries before [k]. *)
Definition bestSoFar (probs : list Q) (k bestIdx : nat) : Prop :=
  bestIdx < k ∧
  ∃ top, probs !! bestIdx = Some top ∧
    (∀ j q, j < k → probs !! j = Some q → (q <= top)%Q) ∧
    (∀ j q, j < bestIdx → probs !! j = Some q → (q < top)%Q).

(** The probability vector that the forward pass of a head gives on a file:
    [Array.from(await probsTensor.data())]. *)
Definition forwardPass (env : Env) (n : MobileNet) (h : LayersModel) (f : File)
    : result (list Q) :=
  let! img := call (fileToImage env f) in
  let! feat := embed2D n img in
  let! probsTensor := call (predict h feat) in
  ok (values probsTensor).

(** The label index of a head, as [onPredictBtn] reads it:
    [(headModel as any).__idx2label || []]. *)
Definition labelIndexOf (h : LayersModel) : list string :=
  default [] (__idx2label h).

(** A label that no plain object inherits a member under. *)
Definition ordinaryLabel (lab : string) : Prop := lab ∉ protoMembers.

(** The number of a count, nothing for a string. *)
Definition countOf (v : CountValue) : nat :=
  match v with
  | Num k => k
  | Text _ => 0
  end.

(** The numbers on the label badges added up. *)
Definition totalCount (m : gmap string CountValue) : nat :=
  map_fold (λ _ v acc, countOf v + acc) 0 m.

(** A dictionary of counts against the labels counted so far: the count of
    an ordinary label is exact, no number stands under an inherited name,
    every key is a label that was counted, and the numbers add up to the
    number of ordinary labels counted. *)
Definition countsTrack (m : gmap string CountValue) (labs : list string)
    : Prop :=
  (∀ lab, ordinaryLabel lab → m !! lab = countEntry (occurrences lab labs)) ∧
  (∀ lab k, lab ∈ protoMembers → m !! lab ≠ Some (Num k)) ∧
  m !! "__proto__" = None ∧
  (∀ lab, is_Some (m !! lab) → lab ∈ labs) ∧
  totalCount m
    = length (List.filter (λ lab, bool_decide (ordinaryLabel lab)) labs).

(* ------------------------------------------------------------------------- *)
(** ** What the screen derives from the state *)
(* ------------------------------------------------------------------------- *)

(** [s.padStart(2, "0")] *)
Definition padStart2 (s : string) : string :=
  String.concat "" (replicate (2 - String.length s) "0") +:+ s.

(** The three readings of [new Date()] that [logTime] uses. *)
Record Clock : Type := mkClock {
  getHours : nat;
  getMinutes : nat;
  getSeconds : nat
}.

(** [logTime()]: the three readings, two digits each, joined by colons. *)
Definition logTime (d : Clock) : string :=
  padStart2 (pretty (getHours d)) +:+ ":" +:+
  padStart2 (pretty (getMinutes d)) +:+ ":" +:+
  padStart2 (pretty (getSeconds d)).

(** [m.set(label, [...(m.get(label) ?? []), uri])] on a [Map], whose entries
    stay in the order in which their keys came in. *)
Fixpoint groupInsert (m : list (string * list string)) (lab u : string)
    : list (string * list string) :=
  match m with
  | [] => [(lab, [u])]
  | (l, us) :: rest =>
      if decide (l = lab) then (l, us ++ [u]) :: rest
      else (l, us) :: groupInsert rest lab u
  end.

(** [groupedPreviews]: the preview URLs by label, [Array.from(m.entries())]. *)
Definition groupedPreviews (ps : list Preview) : list (string * list string) :=
  foldl (λ m p, groupInsert m (preview_label p) (preview_uri p)) [] ps.

(** [Object.entries(labelCounts).length === 0]: the badges give way to
    "(No training images yet)". *)
Definition noBadges (s : State) : bool :=
  bool_decide (size (labelCounts s) = 0).

(** One step of a stable sort by [(a, b) => b[1] - a[1]]: the entry [x], which
    came before all of [l], goes in front of the first entry that is not
    larger. *)
Fixpoint insertDesc (x : string * Q) (l : list (string * Q))
    : list (string * Q) :=
  match l with
  | [] => [x]
  | y :: rest =>
      if Qle_bool (snd y) (snd x) then x :: y :: rest
      else y :: insertDesc x rest
  end.

(** [entries.sort((a, b) => b[1] - a[1])] *)
Definition sortDesc (entries : list (string * Q)) : list (string * Q) :=
  foldr insertDesc [] entries.

(** The confidence pills: [.sort((a, b) => b[1] - a[1]).slice(0, 5)] of the
    entries of [pred.confidences], in whatever order the engine lists them. *)
Definition shownConfidences (entries : list (string * Q)) : list (string * Q) :=
  take 5 (sortDesc entries).

(** The reading of a two-digit field of a time stamp. *)
Definition readTwoDigits (s : string) : option nat :=
  match s with
  | String a (String b EmptyString) =>
      Some (10 * (nat_of_ascii a - 48) + (nat_of_ascii b - 48))
  | _ => None
  end.

(** The URLs of the previews that carry a label, in order. *)
Definition urisOf (lab : string) (ps : list Preview) : list string :=
  preview_uri <$> List.filter (λ p, bool_decide (preview_label p = lab)) ps.

(** An entry comes before another in the pills: its confidence is not the
    smaller one. *)
Definition pillOrder (a b : string * Q) : Prop := (snd b <= snd a)%Q.

(** The labels of the training examples held. *)
Definition datasetLabels (s : State) : list string := label <$> trainFiles s.

(** The base model of the session is the one that [mobilenet.load] gave, and
    [ready] tells whether it is there. *)
Definition baseModelLoaded (env : Env) (s : State) : Prop :=
  (ready s = true ↔ is_Some (net s)) ∧
  (∀ n, net s = Some n →
     mobilenetLoad env = inr n ∧ ∃ backend, tfReady env = inr backend).

(** Every preview is the preview of a training example still held. *)
Definition previewsHeld (s : State) : Prop :=
  ∀ p, p ∈ trainPreviews s → ∃ t, t ∈ trainFiles s ∧ previewOf t = p.

(* ========================================================================= *)
(** * Properties *)
(* ========================================================================= *)

(** Reads of the cells of a state that a chain of setters produced. *)
Ltac fields := simpl; repeat split; first [reflexivity | assumption].

(* ------------------------------------------------------------------------- *)
(** ** Paths and labels *)
(* ------------------------------------------------------------------------- *)

Section Paths.

Lemma split_slash_nonempty (s : string) : split_slash s ≠ [].
Proof.
  induction s as [|c rest IH]; simpl; [done|].
  destruct (Ascii.eqb c "/"); [done|].
  by destruct (split_slash rest).
Qed.







End Paths.

(* ------------------------------------------------------------------------- *)
(** ** Reads and writes of a plain object *)
(* ------------------------------------------------------------------------- *)

Section Objects.

Context {A : Type}.

Lemma proto_is_member : "__proto__" ∈ protoMembers.
Proof. apply (bool_decide_unpack _). by vm_compute. Qed.

Lemma ordinaryLabel_not_proto (lab : string) :
  ordinaryLabel lab → lab ≠ "__proto__".
Proof. intros Hord ->. apply Hord, proto_is_member. Qed.

Lemma lookup_writeProp_eq (key : string) (v : A) (m : gmap string A) :
  key ≠ "__proto__" → writeProp key v m !! key = Some v.
Proof.
  intros Hkey. unfold writeProp. rewrite decide_False by done.
  apply lookup_insert_eq.
Qed.

Lemma lookup_writeProp_ne (key : string) (v : A) (m : gmap string A)
    (k : string) :
  key ≠ k → writeProp key v m !! k = m !! k.
Proof.
  intros Hne. unfold writeProp. case_decide; [done|].
  by apply lookup_insert_ne.
Qed.

(** No write reaches the key [__proto__]. *)
Lemma lookup_writeProp_proto (key : string) (v : A) (m : gmap string A) :
  writeProp key v m !! "__proto__" = m !! "__proto__".
Proof.
  unfold writeProp. case_decide as Hkey; [done|].
  by apply lookup_insert_ne.
Qed.

End Objects.

(* ------------------------------------------------------------------------- *)
(** ** The scanning loop of the import *)
(* ------------------------------------------------------------------------- *)

Section ScanLoop.

Variable env : Env.

Lemma trainFilesOf_length (c : nat) (imgs : list File) :
  length (trainFilesOf c imgs) = length imgs.
Proof. revert c. induction imgs; intros; simpl; auto. Qed.

Lemma trainFilesOf_file (c : nat) (imgs : list File) :
  file <$> trainFilesOf c imgs = imgs.
Proof. revert c. induction imgs; intros; simpl; f_equal; auto. Qed.

Lemma trainFilesOf_label (c : nat) (imgs : list File) :
  label <$> trainFilesOf c imgs = (λ f, labelOfPath (relativePathOf f)) <$> imgs.
Proof. revert c. induction imgs; intros; simpl; f_equal; auto. Qed.

(** What the loop leaves in its locals: one example, one preview and one
    count per image file, in the order of the batch; nothing for the
    others. *)
Lemma scanFiles_spec (files : list File) (acc : Scan) :
  let imgs := List.filter isImageFile files in
  let news := trainFilesOf (scanBlob acc) imgs in
  scanFiles env files acc =
    mkScan (newTrain acc ++ news)
           (previews acc ++ (previewOf <$> news))
           (countLabels env (label <$> news) (counts acc))
           (added acc + length imgs)
           (scanBlob acc + length imgs).
Proof.
  revert acc. induction files as [|f rest IH]; intros acc; simpl.
  - destruct acc. simpl. rewrite !app_nil_r, !Nat.add_0_r. done.
  - destruct (isImageFile f) eqn:Himg; simpl.
    + rewrite IH. simpl. rewrite <- !app_assoc. simpl.
      f_equal; lia.
    + apply IH.
Qed.

Lemma occurrences_snoc (lab : string) (labs : list string) (l : string) :
  occurrences lab (labs ++ [l])
    = occurrences lab labs + (if decide (l = lab) then 1 else 0).
Proof.
  unfold occurrences. rewrite List.filter_app, length_app. simpl.
  case_decide.
  - by rewrite bool_decide_eq_true_2.
  - by rewrite bool_decide_eq_false_2.
Qed.

Lemma occurrences_cons (lab : string) (labs : list string) (l : string) :
  occurrences lab (l :: labs)
    = (if decide (l = lab) then 1 else 0) + occurrences lab labs.
Proof.
  unfold occurrences. simpl. case_decide.
  - by rewrite bool_decide_eq_true_2.
  - by rewrite bool_decide_eq_false_2.
Qed.

(** One more example under an ordinary label whose entry is a number. *)
Lemma bumpCount_numberAt (m : gmap string CountValue) (l lab : string)
    (k : nat) :
  ordinaryLabel lab → numberAt m lab = Some k →
  numberAt (bumpCount env l m) lab
    = Some (k + (if decide (l = lab) then 1 else 0)).
Proof.
  intros Hord. unfold numberAt, bumpCount. case_decide as Hl.
  - subst l. rewrite lookup_writeProp_eq by by apply ordinaryLabel_not_proto.
    unfold readProp. destruct (m !! lab) as [[j|text]|]; simpl; [| |].
    + by intros [= ->].
    + done.
    + rewrite decide_False by done. by intros [= <-].
  - rewrite lookup_writeProp_ne by done. rewrite Nat.add_0_r. done.
Qed.

Lemma countLabels_numberAt (labs : list string) (m : gmap string CountValue)
    (lab : string) (k : nat) :
  ordinaryLabel lab → numberAt m lab = Some k →
  numberAt (countLabels env labs m) lab = Some (k + occurrences lab labs).
Proof.
  intros Hord. unfold countLabels. revert m k.
  induction labs as [|l rest IH]; intros m k Hk; simpl.
  - by rewrite Nat.add_0_r.
  - rewrite (IH _ (k + (if decide (l = lab) then 1 else 0))).
    + rewrite occurrences_cons. f_equal. lia.
    + by apply bumpCount_numberAt.
Qed.

Lemma totalCount_insert (m : gmap string CountValue) (lab : string)
    (v : CountValue) :
  totalCount (<[lab := v]> m) + from_option countOf 0 (m !! lab)
    = totalCount m + countOf v.
Proof.
  unfold totalCount. destruct (m !! lab) as [w|] eqn:Hlab; simpl.
  - rewrite <- insert_delete_eq.
    rewrite map_fold_insert_L; [|intros; lia|apply lookup_delete_eq].
    rewrite (map_fold_delete_L _ _ lab w m); [lia|intros; lia|done].
  - rewrite map_fold_insert_L; [lia|intros; lia|done].
Qed.

(** One turn of the loop keeps the counts on track: an ordinary label is
    counted, an inherited name gets a string, [__proto__] gets nothing. *)
Lemma bumpCount_track (m : gmap string CountValue) (labs : list string)
    (lab : string) :
  countsTrack m labs → countsTrack (bumpCount env lab m) (labs ++ [lab]).
Proof.
  intros (Hexact & Hnum & Hproto & Hkeys & Htotal).
  unfold countsTrack. rewrite List.filter_app, length_app. simpl.
  assert (∀ l, is_Some (m !! l) → l ∈ labs ++ [lab]) as Hkeys'.
  { intros l Hl. apply elem_of_app. left. by apply Hkeys. }
  assert (lab ∈ labs ++ [lab]) as Hlast.
  { apply elem_of_app. right. apply list_elem_of_here. }
  unfold bumpCount, writeProp.
  destruct (decide (lab = "__proto__")) as [->|Hnp].
  - rewrite bool_decide_eq_false_2
      by (intros Hord; apply Hord, proto_is_member).
    split_and!; [|done|done|done|simpl; lia].
    intros l Hl. rewrite occurrences_snoc, decide_False, Nat.add_0_r.
    + by apply Hexact.
    + intros <-. apply Hl, proto_is_member.
  - destruct (decide (lab ∈ protoMembers)) as [Hin|Hord].
    + assert (∃ text, plusOne env lab (readProp m lab) = Text text ∧
                      from_option countOf 0 (m !! lab) = 0)
        as (text & -> & Hzero).
      { unfold readProp. destruct (m !! lab) as [[k|text]|] eqn:Hm.
        - by destruct (Hnum lab k Hin).
        - simpl. eauto.
        - rewrite decide_True by done. simpl. rewrite decide_False by done.
          eauto. }
      rewrite bool_decide_eq_false_2 by (intros Hord; by apply Hord).
      pose proof (totalCount_insert m lab (Text text)) as Hins.
      rewrite Hzero in Hins. simpl in Hins.
      split_and!.
      * intros l Hl. assert (lab ≠ l) as Hne by (intros ->; by apply Hl).
        rewrite lookup_insert_ne, occurrences_snoc, decide_False, Nat.add_0_r
          by done.
        by apply Hexact.
      * intros l k Hl. destruct (decide (lab = l)) as [->|Hne].
        -- by rewrite lookup_insert_eq.
        -- rewrite lookup_insert_ne by done. by apply Hnum.
      * by rewrite lookup_insert_ne.
      * intros l. destruct (decide (lab = l)) as [->|Hne]; [done|].
        rewrite lookup_insert_ne by done. apply Hkeys'.
      * simpl. lia.
    + pose proof (Hexact lab Hord) as Hlab.
      assert (plusOne env lab (readProp m lab)
                = Num (occurrences lab labs + 1) ∧
              from_option countOf 0 (m !! lab) = occurrences lab labs)
        as [-> Hold].
      { unfold readProp. rewrite Hlab.
        destruct (occurrences lab labs) as [|k]; simpl; [|done].
        by rewrite decide_False. }
      rewrite bool_decide_eq_true_2 by done.
      pose proof (totalCount_insert m lab (Num (occurrences lab labs + 1)))
        as Hins.
      rewrite Hold in Hins. simpl in Hins.
      split_and!.
      * intros l Hl. rewrite occurrences_snoc.
        destruct (decide (lab = l)) as [->|Hne].
        -- rewrite lookup_insert_eq.
           by replace (occurrences l labs + 1) with (S (occurrences l labs))
             by lia.
        -- rewrite lookup_insert_ne, Nat.add_0_r by done. by apply Hexact.
      * intros l k Hl. rewrite lookup_insert_ne; [by apply Hnum|].
        intros ->. by apply Hord.
      * by rewrite lookup_insert_ne.
      * intros l. destruct (decide (lab = l)) as [->|Hne]; [done|].
        rewrite lookup_insert_ne by done. apply Hkeys'.
      * simpl. lia.
Qed.

Lemma countsTrack_empty : countsTrack ∅ [].
Proof.
  split_and!.
  - intros lab _. by rewrite lookup_empty.
  - intros lab k _. by rewrite lookup_empty.
  - by rewrite lookup_empty.
  - intros lab [v Hv]. by rewrite lookup_empty in Hv.
  - unfold totalCount. by rewrite map_fold_empty.
Qed.

Lemma countLabels_track (news : list string) (m : gmap string CountValue)
    (labs : list string) :
  countsTrack m labs → countsTrack (countLabels env news m) (labs ++ news).
Proof.
  unfold countLabels. revert m labs.
  induction news as [|l news IH]; intros m labs Hm; simpl.
  - by rewrite app_nil_r.
  - replace (labs ++ l :: news) with ((labs ++ [l]) ++ news)
      by (by rewrite <- app_assoc).
    apply IH. by apply bumpCount_track.
Qed.

Lemma examplesWith_app (lab : string) (l1 l2 : list TrainFile) :
  examplesWith lab (l1 ++ l2) = examplesWith lab l1 + examplesWith lab l2.
Proof.
  unfold examplesWith. by rewrite List.filter_app, length_app.
Qed.

Lemma examplesWith_occurrences (lab : string) (l : list TrainFile) :
  examplesWith lab l = occurrences lab (label <$> l).
Proof.
  unfold examplesWith, occurrences.
  induction l as [|t rest IH]; simpl; [done|].
  destruct (bool_decide (label t = lab)); simpl; by rewrite IH.
Qed.

End ScanLoop.

(* ------------------------------------------------------------------------- *)
(** ** What [onAddFolder] writes *)
(* ------------------------------------------------------------------------- *)

Section AddFolder.

Variable env : Env.

Lemma no_image_no_example (files : list File) :
  Forall (λ f, isImageFile f = false) files →
  List.filter isImageFile files = [].
Proof.
  induction 1 as [|f rest Hf _ IH]; [done|]. simpl. by rewrite Hf.
Qed.

Lemma imported_nil (files : list File) (s : State) :
  List.filter isImageFile files = [] → imported env files s = [].
Proof. unfold imported. intros ->. by destruct (isWeb env). Qed.

Lemma onAddFolder_trainFiles (files : list File) (s : State) :
  trainFiles (onAddFolder env (Some files) s)
    = trainFiles s ++ imported env files s.
Proof.
  unfold onAddFolder, imported. destruct (isWeb env); simpl.
  - rewrite scanFiles_spec. simpl.
    destruct (List.filter isImageFile files) as [|f imgs]; simpl.
    + by rewrite app_nil_r.
    + done.
  - by rewrite app_nil_r.
Qed.

Lemma onAddFolder_labelCounts (files : list File) (s : State) :
  labelCounts (onAddFolder env (Some files) s)
    = countLabels env (label <$> imported env files s) (labelCounts s).
Proof.
  unfold onAddFolder, imported. destruct (isWeb env); simpl; [|done].
  rewrite scanFiles_spec. simpl.
  destruct (List.filter isImageFile files) as [|f imgs]; simpl; done.
Qed.

Lemma onAddFolder_trainPreviews (files : list File) (s : State) :
  trainPreviews (onAddFolder env (Some files) s)
    = match imported env files s with
      | [] => trainPreviews s
      | news => take 200 ((previewOf <$> news) ++ trainPreviews s)
      end.
Proof.
  unfold onAddFolder, imported. destruct (isWeb env); simpl; [|done].
  rewrite scanFiles_spec. simpl.
  destruct (List.filter isImageFile files) as [|f imgs]; simpl; done.
Qed.

(** The import reads and writes the dataset only. *)
Lemma onAddFolder_frame (files : option (list File)) (s : State) :
  let s' := onAddFolder env files s in
  net s' = net s ∧ headModel s' = headModel s ∧
  testFile s' = testFile s ∧ pred s' = pred s.
Proof.
  destruct files as [files|]; simpl; [|done].
  unfold onAddFolder. destruct (isWeb env); simpl; [|done].
  destruct (added _ =? 0); simpl; done.
Qed.

End AddFolder.

(* ------------------------------------------------------------------------- *)
(** ** The label index *)
(* ------------------------------------------------------------------------- *)

Section LabelIndex.

Lemma setFrom_elem (seen xs : list string) (x : string) :
  x ∈ setFrom seen xs ↔ x ∈ seen ∨ x ∈ xs.
Proof.
  revert seen. induction xs as [|y rest IH]; intros seen; simpl.
  - rewrite elem_of_nil. tauto.
  - case_decide as Hy; rewrite IH, ?elem_of_app, !elem_of_cons, ?elem_of_nil;
      [|tauto].
    split; [tauto|]. intros [Hx|[->|Hx]]; tauto.
Qed.

Lemma setFrom_NoDup (seen xs : list string) :
  NoDup seen → NoDup (setFrom seen xs).
Proof.
  revert seen. induction xs as [|y rest IH]; intros seen Hseen; simpl.
  - done.
  - case_decide; apply IH; [done|].
    apply NoDup_app. split_and!; [done| |apply NoDup_singleton].
    intros x Hx ->%list_elem_of_singleton. done.
Qed.

Lemma labelSetOf_Permutation (labels : list string) :
  labelSetOf labels ≡ₚ setFrom [] labels.
Proof. apply merge_sort_Permutation. Qed.

Lemma labelSetOf_elem (labels : list string) (lab : string) :
  lab ∈ labelSetOf labels ↔ lab ∈ labels.
Proof.
  rewrite labelSetOf_Permutation, setFrom_elem, elem_of_nil. tauto.
Qed.

Lemma labelSetOf_NoDup (labels : list string) : NoDup (labelSetOf labels).
Proof.
  rewrite labelSetOf_Permutation. apply setFrom_NoDup, NoDup_nil_2.
Qed.

Lemma labelSetOf_Sorted (labels : list string) :
  Sorted String.le (labelSetOf labels).
Proof. apply (Sorted_merge_sort String.le). Qed.

Lemma labelSetOf_nonempty (labels : list string) :
  labels ≠ [] → labelSetOf labels ≠ [].
Proof.
  destruct labels as [|lab rest]; [done|]. intros _ Hnil.
  assert (lab ∈ labelSetOf (lab :: rest)) as Hin
    by apply labelSetOf_elem, list_elem_of_here.
  rewrite Hnil in Hin. by apply not_elem_of_nil in Hin.
Qed.

(** There is one way to put a set of labels in order: whatever sorting
    algorithm the engine runs, the outcome is this one. *)
Lemma sorted_labels_unique (l1 l2 : list string) :
  Sorted String.le l1 → Sorted String.le l2 → NoDup l1 → NoDup l2 →
  (∀ lab, lab ∈ l1 ↔ lab ∈ l2) → l1 = l2.
Proof.
  intros Hs1 Hs2 Hd1 Hd2 Hsame.
  apply (Sorted_unique String.le); [done..|].
  by apply NoDup_Permutation.
Qed.

Lemma labelSetOf_same_set (labels labels' : list string) :
  (∀ lab, lab ∈ labels ↔ lab ∈ labels') →
  labelSetOf labels' = labelSetOf labels.
Proof.
  intros Hsame.
  apply sorted_labels_unique;
    auto using labelSetOf_Sorted, labelSetOf_NoDup.
  intros lab. rewrite !labelSetOf_elem. by rewrite Hsame.
Qed.

Lemma labelSetOf_fixed (labelSet : list string) :
  Sorted String.le labelSet → NoDup labelSet →
  labelSetOf labelSet = labelSet.
Proof.
  intros Hs Hd.
  apply sorted_labels_unique;
    auto using labelSetOf_Sorted, labelSetOf_NoDup, labelSetOf_elem.
Qed.

(** [forEach] leaves the key [__proto__] as it found it. *)
Lemma assignIndices_proto (from : nat) (labs : list string)
    (m : gmap string nat) :
  assignIndices from labs m !! "__proto__" = m !! "__proto__".
Proof.
  revert from m. induction labs as [|l rest IH]; intros from m; simpl; [done|].
  by rewrite IH, lookup_writeProp_proto.
Qed.

(** Where [forEach] leaves every other key: distinct labels get their
    position. *)
Lemma assignIndices_lookup (from : nat) (labs : list string)
    (m : gmap string nat) (lab : string) (i : nat) :
  NoDup labs → lab ≠ "__proto__" →
  assignIndices from labs m !! lab = Some i ↔
    (∃ j, labs !! j = Some lab ∧ i = (from + j)%nat) ∨
    ((lab ∉ labs) ∧ m !! lab = Some i).
Proof.
  intros Hd Hlab. revert from m Hd.
  induction labs as [|l rest IH]; intros from m Hd; simpl.
  - split; [intros Hm; right; split; [apply not_elem_of_nil|done]|].
    intros [(j & Hj & _)|[_ Hm]]; [by rewrite lookup_nil in Hj|done].
  - apply NoDup_cons in Hd as [Hl Hd]. rewrite IH by done. split.
    + intros [(j & Hj & ->)|[Hnot Hm]].
      * left. exists (S j). split; [done|lia].
      * destruct (decide (l = lab)) as [->|Hne].
        -- rewrite lookup_writeProp_eq in Hm by done. injection Hm as <-.
           left. exists 0. split; [done|lia].
        -- rewrite lookup_writeProp_ne in Hm by done.
           right. split; [|done]. by apply not_elem_of_cons.
    + intros [(j & Hj & ->)|[Hnot Hm]].
      * destruct j as [|j]; simpl in Hj.
        -- injection Hj as ->. right. split; [done|].
           rewrite lookup_writeProp_eq by done. f_equal. lia.
        -- left. exists j. split; [done|lia].
      * apply not_elem_of_cons in Hnot as [Hne Hnot].
        right. split; [done|]. by rewrite lookup_writeProp_ne.
Qed.

Lemma label2idxOf_lookup (labelSet : list string) (lab : string) (i : nat) :
  NoDup labelSet → lab ≠ "__proto__" →
  label2idxOf labelSet !! lab = Some i ↔ labelSet !! i = Some lab.
Proof.
  intros Hd Hlab. unfold label2idxOf. rewrite assignIndices_lookup by done.
  split.
  - intros [(j & Hj & ->)|[_ Hm]]; [done|by rewrite lookup_empty in Hm].
  - intros Hi. left. by exists i.
Qed.

(** The label [__proto__] gets no index, and reading it gives the member
    that the index inherits. *)
Lemma label2idxOf_proto (labelSet : list string) :
  label2idxOf labelSet !! "__proto__" = None ∧
  readProp (label2idxOf labelSet) "__proto__" = Inherited.
Proof.
  assert (label2idxOf labelSet !! "__proto__" = None) as Hnone.
  { unfold label2idxOf. by rewrite assignIndices_proto, lookup_empty. }
  split; [done|]. unfold readProp. rewrite Hnone.
  by rewrite decide_True by apply proto_is_member.
Qed.

(** Every other label of the training files has its index, and the loop
    reads it. *)
Lemma label2idx_defined (labels : list string) (lab : string) :
  lab ∈ labels → lab ≠ "__proto__" →
  ∃ idx, labelSetOf labels !! idx = Some lab ∧
         label2idxOf (labelSetOf labels) !! lab = Some idx ∧
         readProp (label2idxOf (labelSetOf labels)) lab = Own idx.
Proof.
  intros Hin Hlab. apply labelSetOf_elem in Hin.
  apply list_elem_of_lookup in Hin as [i Hi].
  assert (label2idxOf (labelSetOf labels) !! lab = Some i) as Hidx
    by (apply label2idxOf_lookup; [apply labelSetOf_NoDup|done|done]).
  exists i. split_and!; [done|done|].
  unfold readProp. by rewrite Hidx.
Qed.

End LabelIndex.

(* ------------------------------------------------------------------------- *)
(** ** The message log *)
(* ------------------------------------------------------------------------- *)

Section Messages.

Lemma pushMsgs_setMessages (lines : list string) (s : State) :
  pushMsgs lines s
    = setMessages (λ m, foldl (λ acc line, take 200 (line :: acc)) m lines) s.
Proof.
  unfold pushMsgs. revert s.
  induction lines as [|line rest IH]; intros s; simpl.
  - by destruct s.
  - by rewrite IH.
Qed.

(** Pushing lines touches the log only. *)
Lemma pushMsgs_frame (lines : list string) (s : State) :
  let s' := pushMsgs lines s in
  net s' = net s ∧ trainFiles s' = trainFiles s ∧
  labelCounts s' = labelCounts s ∧ headModel s' = headModel s ∧
  trainPreviews s' = trainPreviews s ∧ testFile s' = testFile s ∧
  pred s' = pred s.
Proof. simpl. by rewrite pushMsgs_setMessages. Qed.

End Messages.

(* ------------------------------------------------------------------------- *)
(** ** The extraction loop and the training run *)
(* ------------------------------------------------------------------------- *)

Section Training.

Variable env : Env.
Variable n : MobileNet.

(** A feature vector has one dimension. *)
Lemma embed1D_shape (img : Image) (feat : Tensor) :
  embed1D n img = ok feat → ∃ d, shape feat = [d].
Proof.
  unfold embed1D, bind, call, ok, throw. destruct (infer n img) as [e|emb]; [done|].
  destruct (lastDim emb) as [d|]; [|done].
  unfold reshape. case_decide; [|done].
  intros [= <-]. by exists d.
Qed.

Lemma featureOf_dim (f : File) (feat : Tensor) :
  featureOf env n f = ok feat → is_Some (dimOf feat).
Proof.
  unfold featureOf, bind, call, ok, throw.
  destruct (fileToImage env f) as [e|img]; [done|].
  intros [d Hd]%embed1D_shape. unfold dimOf. rewrite Hd. by exists d.
Qed.

(** With two classes or more, a target is built whatever was read as the
    index. *)
Lemma oneHotOfLabel_ok (label2idx : gmap string nat) (numClasses : nat)
    (lab : string) :
  2 ≤ numClasses →
  ∃ y, oneHotOfLabel env label2idx numClasses lab = ok y.
Proof.
  intros Hdepth. unfold oneHotOfLabel, oneHot.
  assert ((numClasses <? 2) = false) as -> by (apply Nat.ltb_ge; lia).
  simpl. eauto.
Qed.


(** A model that comes out of the [try] carries the index built from the
    training files. *)
Lemma trainHeadTry_built (files : list TrainFile) (lines : list string)
    (m : LayersModel) :
  files ≠ [] → trainHeadTry env n files = (lines, inr m) → headBuilt m.
Proof.
  intros Hfiles. unfold trainHeadTry.
  destruct (extractLoop _ _ _ _ _ _) as [e|ex]; [done|].
  destruct (featureDim ex) as [d|]; [|done].
  unfold call, ok, throw.
  destruct (tfStack env (xs ex)) as [e|xTrain]; [done|].
  destruct (tfStack env (ys ex)) as [e|yTrain]; [done|].
  destruct (tfFit _ _ _ _ _ _ _) as [epochLines [e|forward]]; [done|].
  simpl. intros [= _ <-].
  exists (labelSetOf (label <$> files)). simpl.
  split_and!; [done|done| |apply labelSetOf_NoDup|apply labelSetOf_Sorted].
  apply labelSetOf_nonempty. by destruct files.
Qed.

End Training.

(* ------------------------------------------------------------------------- *)
(** ** What the handlers write *)
(* ------------------------------------------------------------------------- *)

Section Handlers.

Variable env : Env.

(** Training reads the dataset and never writes it. *)
Lemma onTrainHead_dataset (s : State) :
  let s' := onTrainHead env s in
  net s' = net s ∧ trainFiles s' = trainFiles s ∧
  labelCounts s' = labelCounts s ∧ trainPreviews s' = trainPreviews s ∧
  testFile s' = testFile s.
Proof.
  simpl. unfold onTrainHead. destruct (net s) as [n|] eqn:Hnet; [|fields].
  destruct (length (trainFiles s) =? 0); [fields|].
  destruct (trainHeadTry env n (trainFiles s)) as [lines [e|m]]; simpl;
    rewrite pushMsgs_setMessages; fields.
Qed.

(** A call that is turned away before the [try] changes the log only. *)
Lemma onTrainHead_refused (s : State) :
  net s = None ∨ trainFiles s = [] →
  headModel (onTrainHead env s) = headModel s ∧
  pred (onTrainHead env s) = pred s.
Proof.
  unfold onTrainHead. intros [Hnet|Hfiles].
  - rewrite Hnet. fields.
  - rewrite Hfiles. destruct (net s); fields.
Qed.

(** A run that starts drops the head and the prediction first; the head
    cell then holds the model of a [try] that went through, or nothing. *)
Lemma onTrainHead_started (s : State) (n : MobileNet) :
  net s = Some n → trainFiles s ≠ [] →
  pred (onTrainHead env s) = None ∧
  headModel (onTrainHead env s)
    = match (trainHeadTry env n (trainFiles s)).2 with
      | inr m => Some m
      | inl _ => None
      end.
Proof.
  intros Hnet Hfiles. unfold onTrainHead. rewrite Hnet.
  destruct (trainFiles s) as [|t rest] eqn:Hfs; [done|].
  change (length (t :: rest) =? 0) with false. cbv iota.
  destruct (trainHeadTry env n (t :: rest)) as [lines [e|m]]; simpl;
    rewrite pushMsgs_setMessages; fields.
Qed.

Lemma onMount_frame (s : State) :
  let s' := onMount env s in
  trainFiles s' = trainFiles s ∧ labelCounts s' = labelCounts s ∧
  headModel s' = headModel s.
Proof.
  simpl. unfold onMount, call, ok, throw. destruct (tfReady env); [fields|].
  destruct (mobilenetLoad env); fields.
Qed.

Lemma onPredictBtn_frame (s : State) :
  let s' := onPredictBtn env s in
  net s' = net s ∧ trainFiles s' = trainFiles s ∧
  labelCounts s' = labelCounts s ∧ headModel s' = headModel s ∧
  testFile s' = testFile s.
Proof.
  simpl. unfold onPredictBtn. destruct (net s) as [n|] eqn:Hnet; [|fields].
  destruct (headModel s) as [h|] eqn:Hhead; [|fields].
  destruct (testFile s) as [f|] eqn:Htest; [|fields].
  destruct (predictTry env n h f); fields.
Qed.

(** The prediction cell after [onPredictBtn], when all three of base model,
    head and test image are there. *)
Lemma onPredictBtn_pred (s : State) (n : MobileNet) (h : LayersModel)
    (f : File) :
  net s = Some n → headModel s = Some h → testFile s = Some f →
  pred (onPredictBtn env s)
    = match predictTry env n h f with
      | inr p => Some p
      | inl _ => None
      end.
Proof.
  intros Hnet Hhead Htest. unfold onPredictBtn.
  rewrite Hnet, Hhead, Htest. destruct (predictTry env n h f); fields.
Qed.

Lemma onSelectTest_frame (f : option File) (s : State) :
  let s' := onSelectTest f s in
  trainFiles s' = trainFiles s ∧ labelCounts s' = labelCounts s ∧
  headModel s' = headModel s.
Proof. simpl. unfold onSelectTest. destruct f; fields. Qed.

(** Every head that a session holds was built by a training run. *)
Lemma step_headBuilt (s : State) (ev : Event) :
  (∀ h, headModel s = Some h → headBuilt h) →
  ∀ h, headModel (step env s ev) = Some h → headBuilt h.
Proof.
  intros Hs h. destruct ev as [|files| |f| |]; simpl.
  - destruct (onMount_frame s) as (_ & _ & ->). apply Hs.
  - destruct (onAddFolder_frame env files s) as (_ & -> & _). apply Hs.
  - destruct (net s) as [n|] eqn:Hnet.
    + destruct (decide (trainFiles s = [])) as [Hnil|Hfiles].
      * destruct (onTrainHead_refused s) as [-> _]; [by right|]. apply Hs.
      * destruct (onTrainHead_started s n Hnet Hfiles) as [_ ->].
        destruct (trainHeadTry env n (trainFiles s)) as [lines [e|m]] eqn:Htry;
          simpl; [done|].
        intros [= <-]. by eapply trainHeadTry_built.
    + destruct (onTrainHead_refused s) as [-> _]; [by left|]. apply Hs.
  - destruct (onSelectTest_frame f s) as (_ & _ & ->). apply Hs.
  - destruct (onPredictBtn_frame s) as (_ & _ & _ & -> & _). apply Hs.
  - done.
Qed.

Lemma foldl_step_headBuilt (evs : list Event) (s : State) :
  (∀ h, headModel s = Some h → headBuilt h) →
  ∀ h, headModel (foldl (step env) s evs) = Some h → headBuilt h.
Proof.
  revert s. induction evs as [|ev rest IH]; intros s Hs; simpl; [done|].
  apply IH. by apply step_headBuilt.
Qed.

Lemma run_headBuilt (evs : list Event) (h : LayersModel) :
  headModel (run env evs) = Some h → headBuilt h.
Proof. apply foldl_step_headBuilt. done. Qed.

(** The counts stay on track along a session. *)
Lemma step_countsTrack (s : State) (ev : Event) :
  countsTrack (labelCounts s) (datasetLabels s) →
  countsTrack (labelCounts (step env s ev)) (datasetLabels (step env s ev)).
Proof.
  intros Hs. unfold datasetLabels. destruct ev as [|files| |f| |]; simpl.
  - by destruct (onMount_frame s) as (-> & -> & _).
  - destruct files as [files|]; [|done].
    rewrite onAddFolder_labelCounts, onAddFolder_trainFiles, fmap_app.
    by apply countLabels_track.
  - by destruct (onTrainHead_dataset s) as (_ & -> & -> & _).
  - by destruct (onSelectTest_frame f s) as (-> & -> & _).
  - by destruct (onPredictBtn_frame s) as (_ & -> & -> & _).
  - apply countsTrack_empty.
Qed.

Lemma run_countsTrack (evs : list Event) :
  countsTrack (labelCounts (run env evs)) (datasetLabels (run env evs)).
Proof.
  unfold run. induction evs as [|ev evs IH] using rev_ind.
  - apply countsTrack_empty.
  - rewrite foldl_app. simpl. by apply step_countsTrack.
Qed.

End Handlers.

(* ------------------------------------------------------------------------- *)
(** ** Reading a prediction off the probabilities *)
(* ------------------------------------------------------------------------- *)

Section Prediction.

Lemma bestSoFar_turn (probs : list Q) (k bestIdx : nat) :
  k < length probs → bestSoFar probs k bestIdx →
  bestSoFar probs (S k)
    (if gtNumber (probs !! k) (probs !! bestIdx) then k else bestIdx).
Proof.
  intros Hk (Hbest & top & Htop & Hle & Hlt).
  destruct (lookup_lt_is_Some_2 probs k Hk) as [pk Hpk].
  rewrite Hpk, Htop. simpl.
  destruct (Qle_bool pk top) eqn:Hcmp; simpl.
  - apply Qle_bool_iff in Hcmp. split; [lia|].
    exists top. split_and!; [done| |done].
    intros j q Hj Hq. destruct (decide (j = k)) as [->|Hne].
    + rewrite Hpk in Hq. by injection Hq as <-.
    + apply (Hle j); [lia|done].
  - assert (top < pk)%Q as Hgt.
    { apply Qnot_le_lt. intros Hle'. apply Qle_bool_iff in Hle'. congruence. }
    split; [lia|]. exists pk. split_and!; [done| |].
    + intros j q Hj Hq. destruct (decide (j = k)) as [->|Hne].
      * rewrite Hpk in Hq. injection Hq as <-. apply Qle_refl.
      * apply Qlt_le_weak. eapply Qle_lt_trans; [|exact Hgt].
        apply (Hle j); [lia|done].
    + intros j q Hj Hq. eapply Qle_lt_trans; [|exact Hgt].
      by apply (Hle j).
Qed.

Lemma bestSoFar_loop (probs : list Q) (turns k bestIdx : nat) :
  k + turns = length probs → bestSoFar probs k bestIdx →
  bestSoFar probs (length probs)
    (foldl (λ b i, if gtNumber (probs !! i) (probs !! b) then i else b)
           bestIdx (seq k turns)).
Proof.
  revert k bestIdx. induction turns as [|turns IH]; intros k bestIdx Hlen Hinv.
  - simpl. by replace (length probs) with k by lia.
  - simpl. apply IH; [lia|]. apply bestSoFar_turn; [lia|done].
Qed.

(** The loop ends on the first maximum. *)
Lemma bestIndex_firstMaximum (probs : list Q) :
  probs ≠ [] → firstMaximum probs (bestIndex probs).
Proof.
  intros Hne. destruct probs as [|p0 rest]; [done|].
  destruct (bestSoFar_loop (p0 :: rest) (length rest) 1 0)
    as (_ & top & Htop & Hle & Hlt).
  - simpl. lia.
  - split; [lia|]. exists p0. split_and!; [done| |intros; lia].
    intros j q Hj Hq. replace j with 0 in Hq by lia.
    injection Hq as <-. apply Qle_refl.
  - unfold bestIndex.
    replace (length (p0 :: rest) - 1) with (length rest) by (simpl; lia).
    exists top. split_and!; [done| |done].
    intros j q Hq. apply (Hle j); [|done].
    by apply lookup_lt_Some in Hq.
Qed.

(** [forEach] leaves the key [__proto__] of [confidences] as it found it. *)
Lemma fillConfidences_proto (from : nat) (labs : list string)
    (probs : list Q) (conf : gmap string Q) :
  fillConfidences from labs probs conf !! "__proto__" = conf !! "__proto__".
Proof.
  revert from conf. induction labs as [|l rest IH]; intros from conf; simpl;
    [done|].
  rewrite IH. destruct (probs !! from); [|done].
  apply lookup_writeProp_proto.
Qed.

(** Where [forEach] leaves every other key of [confidences]. *)
Lemma fillConfidences_lookup (from : nat) (labs : list string)
    (probs : list Q) (conf : gmap string Q) (lab : string) (q : Q) :
  NoDup labs → from + length labs ≤ length probs → lab ≠ "__proto__" →
  fillConfidences from labs probs conf !! lab = Some q ↔
    (∃ j, labs !! j = Some lab ∧ probs !! (from + j) = Some q) ∨
    ((lab ∉ labs) ∧ conf !! lab = Some q).
Proof.
  intros Hd Hlen Hlab. revert from conf Hd Hlen.
  induction labs as [|l rest IH]; intros from conf Hd Hlen.
  - simpl. split; [intros Hm; right; split; [apply not_elem_of_nil|done]|].
    intros [(j & Hj & _)|[_ Hm]]; [by rewrite lookup_nil in Hj|done].
  - apply NoDup_cons in Hd as [Hl Hd]. simpl in Hlen |- *.
    destruct (lookup_lt_is_Some_2 probs from) as [p Hp]; [lia|].
    rewrite Hp, IH by (done || lia). split.
    + intros [(j & Hj & Hq)|[Hnot Hm]].
      * left. exists (S j). split; [done|].
        by replace (from + S j) with (S from + j) by lia.
      * destruct (decide (l = lab)) as [->|Hne].
        -- rewrite lookup_writeProp_eq in Hm by done. injection Hm as <-.
           left. exists 0. split; [done|]. by rewrite Nat.add_0_r.
        -- rewrite lookup_writeProp_ne in Hm by done.
           right. split; [|done]. by apply not_elem_of_cons.
    + intros [(j & Hj & Hq)|[Hnot Hm]].
      * destruct j as [|j]; simpl in Hj.
        -- injection Hj as ->. right. split; [done|].
           rewrite Nat.add_0_r, Hp in Hq. injection Hq as <-.
           by rewrite lookup_writeProp_eq.
        -- left. exists j. split; [done|].
           by replace (S from + j) with (from + S j) by lia.
      * apply not_elem_of_cons in Hnot as [Hne Hnot].
        right. split; [done|]. by rewrite lookup_writeProp_ne.
Qed.

(** One entry per label other than [__proto__], the one at its position,
    and no other key. *)
Lemma confidences_positional (labelSet : list string) (probs : list Q) :
  NoDup labelSet → length probs = length labelSet →
  let conf := fillConfidences 0 labelSet probs ∅ in
  (∀ i lab, labelSet !! i = Some lab →
     is_Some (probs !! i) ∧
     (lab ≠ "__proto__" → conf !! lab = probs !! i)) ∧
  (∀ lab, is_Some (conf !! lab) ↔ lab ∈ labelSet ∧ lab ≠ "__proto__").
Proof.
  intros Hd Hlen conf.
  assert (conf !! "__proto__" = None) as Hproto
    by (unfold conf; by rewrite fillConfidences_proto, lookup_empty).
  split.
  - intros i lab Hi.
    destruct (lookup_lt_is_Some_2 probs i) as [q Hq].
    { rewrite Hlen. by eapply lookup_lt_Some. }
    split; [by exists q|]. intros Hlab. rewrite Hq.
    apply fillConfidences_lookup; [done|simpl; lia|done|]. left. by exists i.
  - intros lab. split.
    + intros [q Hq].
      assert (lab ≠ "__proto__") as Hlab.
      { intros ->. by rewrite Hproto in Hq. }
      split; [|done].
      apply fillConfidences_lookup in Hq as [(j & Hj & _)|[_ Hm]];
        [|by rewrite lookup_empty in Hm|done|simpl; lia|done].
      apply list_elem_of_lookup. by exists j.
    + intros [[i Hi]%list_elem_of_lookup Hlab].
      destruct (lookup_lt_is_Some_2 probs i) as [q Hq].
      { rewrite Hlen. by eapply lookup_lt_Some. }
      exists q. apply fillConfidences_lookup; [done|simpl; lia|done|].
      left. by exists i.
Qed.

Variable env : Env.
Variable n : MobileNet.

(** The [try] of [onPredictBtn], split at the forward pass. *)
Lemma predictTry_forward (h : LayersModel) (f : File) :
  predictTry env n h f
    = (let! probs := forwardPass env n h f in
       let labelSet := labelIndexOf h in
       if (length labelSet =? 0) || negb (length probs =? length labelSet)
       then throw LabelMappingInconsistent
       else ok (mkPred (default "" (labelSet !! bestIndex probs))
                       (fillConfidences 0 labelSet probs ∅))).
Proof.
  unfold predictTry, forwardPass, bind, call, ok, throw.
  destruct (fileToImage env f) as [e|img]; [done|].
  destruct (embed2D n img) as [e|feat]; [done|].
  by destruct (predict h feat) as [e|probsTensor].
Qed.

Lemma headBuilt_index (h : LayersModel) :
  headBuilt h → labelIndexOf h ≠ [] ∧ NoDup (labelIndexOf h).
Proof.
  intros (labelSet & Hidx & _ & Hne & Hd & _).
  unfold labelIndexOf. by rewrite Hidx.
Qed.

(** A prediction that comes out of the [try]. *)
Lemma predictTry_ok_inv (h : LayersModel) (f : File) (p : Pred) :
  predictTry env n h f = ok p →
  ∃ probs,
    forwardPass env n h f = ok probs ∧
    labelIndexOf h ≠ [] ∧
    length probs = length (labelIndexOf h) ∧
    p = mkPred (default "" (labelIndexOf h !! bestIndex probs))
               (fillConfidences 0 (labelIndexOf h) probs ∅).
Proof.
  rewrite predictTry_forward. unfold bind.
  destruct (forwardPass env n h f) as [e|probs]; [done|]. simpl.
  destruct (length (labelIndexOf h) =? 0) eqn:Hzero; [done|]. simpl.
  destruct (length probs =? length (labelIndexOf h)) eqn:Hlen; [|done].
  simpl. intros [= <-]. exists probs.
  apply Nat.eqb_neq in Hzero. apply Nat.eqb_eq in Hlen.
  split_and!; [done| |done|done].
  intros Hnil. by rewrite Hnil in Hzero.
Qed.

(** A collaborator never throws the error of the check. *)
Lemma forwardPass_rejected (h : LayersModel) (f : File) (e : error) :
  forwardPass env n h f = inl e → ∃ text, e = Rejected text.
Proof.
  unfold forwardPass, embed2D, reshape, bind, call, ok, throw.
  destruct (fileToImage env f) as [text|img]; [intros [= <-]; eauto|].
  destruct (infer n img) as [text|emb]; [intros [= <-]; eauto|].
  destruct (lastDim emb) as [d|]; [|intros [= <-]; eauto].
  case_decide; [|intros [= <-]; eauto].
  destruct (predict h _) as [text|probsT]; [intros [= <-]; eauto|done].
Qed.

(** When the check of the label mapping fires, for a head with labels. *)
Lemma predictTry_inconsistent (h : LayersModel) (f : File) :
  labelIndexOf h ≠ [] →
  predictTry env n h f = throw LabelMappingInconsistent ↔
    ∃ probs, forwardPass env n h f = ok probs ∧
             length probs ≠ length (labelIndexOf h).
Proof.
  intros Hne. rewrite predictTry_forward. unfold bind.
  assert ((length (labelIndexOf h) =? 0) = false) as Hzero.
  { apply Nat.eqb_neq. by destruct (labelIndexOf h). }
  split.
  - destruct (forwardPass env n h f) as [e|probs] eqn:Hfwd.
    + apply forwardPass_rejected in Hfwd as [text ->]. done.
    + simpl. rewrite Hzero. simpl.
      destruct (length probs =? length (labelIndexOf h)) eqn:Hlen; [done|].
      intros _. exists probs. split; [done|]. by apply Nat.eqb_neq.
  - intros (probs & -> & Hlen). simpl. rewrite Hzero.
    apply Nat.eqb_neq in Hlen. by rewrite Hlen.
Qed.

End Prediction.

(* ------------------------------------------------------------------------- *)
(** ** The order of an index *)
(* ------------------------------------------------------------------------- *)

Section Order.

Lemma le_ne_compare (a b : string) :
  String.le a b → a ≠ b → String.compare a b = Lt.
Proof.
  unfold String.le, String.leb. intros Hle Hne.
  destruct (String.compare a b) eqn:Hcmp; [|done|done].
  by apply String.compare_eq_iff in Hcmp.
Qed.

(** In a sorted list of distinct labels, an earlier label is strictly
    below a later one. *)
Lemma sorted_lookup_lt (l : list string) (i j : nat) (a b : string) :
  Sorted String.le l → NoDup l → i < j →
  l !! i = Some a → l !! j = Some b → String.compare a b = Lt.
Proof.
  intros Hs Hd Hij Hi Hj. apply le_ne_compare.
  - apply (Sorted_StronglySorted String.le) in Hs.
    rewrite <- (take_drop j l) in Hs.
    eapply (StronglySorted_app_1_elem_of String.le); [exact Hs| |].
    + apply list_elem_of_lookup. exists i. by rewrite lookup_take_lt.
    + apply list_elem_of_lookup. exists 0. by rewrite lookup_drop, Nat.add_0_r.
  - intros ->. assert (i = j) by (by eapply NoDup_lookup). lia.
Qed.

End Order.

(* ------------------------------------------------------------------------- *)
(** ** Heads and datasets along a session *)
(* ------------------------------------------------------------------------- *)

Section Frozen.

Variable env : Env.

(** Imports leave the base model, the head, the test image and the last
    prediction alone. *)
Lemma imports_frame (imports : list Event) (s : State) :
  Forall (λ ev, isImportEvent ev = true) imports →
  let s' := foldl (step env) s imports in
  net s' = net s ∧ headModel s' = headModel s ∧
  testFile s' = testFile s ∧ pred s' = pred s.
Proof.
  intros Himports. revert s.
  induction Himports as [|ev rest Hev _ IH]; intros s; simpl; [done|].
  destruct ev as [|files| |f| |]; try done. simpl.
  destruct (IH (onAddFolder env files s)) as (-> & -> & -> & ->).
  apply onAddFolder_frame.
Qed.

(** The prediction cell after [onPredictBtn] depends on the base model, the
    head, the test image and the cell itself; the dataset is not read. *)
Lemma onPredictBtn_reads (s1 s2 : State) :
  net s1 = net s2 → headModel s1 = headModel s2 →
  testFile s1 = testFile s2 → pred s1 = pred s2 →
  pred (onPredictBtn env s1) = pred (onPredictBtn env s2).
Proof.
  intros Hnet Hhead Htest Hpred. unfold onPredictBtn.
  rewrite Hnet, Hhead, Htest.
  destruct (net s2) as [n|]; [|fields].
  destruct (headModel s2) as [h|]; [|fields].
  destruct (testFile s2) as [f|]; [|fields].
  destruct (predictTry env n h f); fields.
Qed.

(** Without a head, [onPredictBtn] predicts nothing new. *)
Lemma onPredictBtn_no_head (s : State) :
  headModel s = None → pred (onPredictBtn env s) = pred s.
Proof.
  intros Hhead. unfold onPredictBtn. rewrite Hhead.
  destruct (net s); fields.
Qed.

(** A prediction read off the index of the head, entry by entry: the entry
    of every label other than [__proto__], and the top label. *)
Lemma prediction_against_index (n : MobileNet) (h : LayersModel) (f : File)
    (p : Pred) :
  headBuilt h → predictTry env n h f = ok p →
  ∃ probs best,
    forwardPass env n h f = ok probs ∧
    length probs = length (labelIndexOf h) ∧
    (∀ lab, is_Some (confidences p !! lab) ↔
       lab ∈ labelIndexOf h ∧ lab ≠ "__proto__") ∧
    (∀ i lab, labelIndexOf h !! i = Some lab →
       is_Some (probs !! i) ∧
       (lab ≠ "__proto__" → confidences p !! lab = probs !! i)) ∧
    labelIndexOf h !! best = Some (pred_label p) ∧
    firstMaximum probs best.
Proof.
  intros Hbuilt Htry.
  destruct (headBuilt_index h Hbuilt) as [Hne Hd].
  destruct (predictTry_ok_inv env n h f p Htry)
    as (probs & Hfwd & _ & Hlen & ->).
  destruct (confidences_positional (labelIndexOf h) probs Hd Hlen)
    as [Hpos Hdom].
  assert (probs ≠ []) as Hprobs.
  { intros ->. destruct (labelIndexOf h); simpl in *; [done|lia]. }
  pose proof (bestIndex_firstMaximum probs Hprobs) as Hbest.
  exists probs, (bestIndex probs). simpl.
  split_and!; [done..| |done].
  destruct Hbest as (top & Htop & _).
  apply lookup_lt_Some in Htop. rewrite Hlen in Htop.
  destruct (lookup_lt_is_Some_2 _ _ Htop) as [lab Hlab].
  by rewrite Hlab.
Qed.

End Frozen.

(* ========================================================================= *)
(** * The claims *)
(* ========================================================================= *)

(** C4 (what the code does). Building the Label Index from the labels of the
    training files sorts the distinct labels lexicographically and numbers
    them 0..C-1 in that order in [labelSet]: the list holds exactly the
    labels given, and an earlier entry is strictly below a later one. The
    construction depends on the set of labels only, and it gives the list
    back when it is run on the list. The dictionary [label2idx] sends every
    label but one to its position and to nothing else: a label "__proto__"
    has its position in [labelSet], but [label2idx] holds no index for it,
    and what the training loop reads under it is the member that the
    dictionary inherits. *)
Theorem label_index_skips_proto (labels : list string) :
  let labelSet := labelSetOf labels in
  let label2idx := label2idxOf labelSet in
  (∀ lab, lab ∈ labelSet ↔ lab ∈ labels) ∧
  (∀ i j a b, i < j → labelSet !! i = Some a → labelSet !! j = Some b →
     String.compare a b = Lt) ∧
  (∀ lab i, lab ≠ "__proto__" →
     (label2idx !! lab = Some i ↔ labelSet !! i = Some lab)) ∧
  (∀ lab i, label2idx !! lab = Some i → i < length labelSet) ∧
  ("__proto__" ∈ labels →
     (∃ i, labelSet !! i = Some "__proto__") ∧
     label2idx !! "__proto__" = None ∧
     readProp label2idx "__proto__" = Inherited) ∧
  (∀ labels', (∀ lab, lab ∈ labels ↔ lab ∈ labels') →
     labelSetOf labels' = labelSet ∧
     label2idxOf (labelSetOf labels') = label2idx) ∧
  labelSetOf labelSet = labelSet.
Proof.
  intros labelSet label2idx.
  pose proof (labelSetOf_NoDup labels) as Hd.
  pose proof (labelSetOf_Sorted labels) as Hs.
  destruct (label2idxOf_proto labelSet) as [Hnone Hread].
  split_and!.
  - apply labelSetOf_elem.
  - intros i j a b. by apply sorted_lookup_lt.
  - intros lab i Hlab. by apply label2idxOf_lookup.
  - intros lab i Hi. destruct (decide (lab = "__proto__")) as [->|Hlab].
    + unfold label2idx in Hi. by rewrite Hnone in Hi.
    + apply label2idxOf_lookup in Hi; [|done|done].
      by eapply lookup_lt_Some.
  - intros Hin. split_and!; [|done|done].
    apply list_elem_of_lookup. by apply labelSetOf_elem.
  - intros labels' Hsame.
    assert (labelSetOf labels' = labelSet) as ->
      by by apply labelSetOf_same_set.
    done.
  - by apply labelSetOf_fixed.
Qed.

(** The index of the labels cats, __proto__, cats: the list has both labels,
    the dictionary has an index for "cats" only. *)
Lemma label_index_skips_proto_witness :
  labelSetOf ["cats"; "__proto__"; "cats"] = ["__proto__"; "cats"] ∧
  label2idxOf (labelSetOf ["cats"; "__proto__"; "cats"]) !! "cats" = Some 1 ∧
  label2idxOf (labelSetOf ["cats"; "__proto__"; "cats"]) !! "__proto__" = None ∧
  readProp (label2idxOf (labelSetOf ["cats"; "__proto__"; "cats"])) "__proto__"
    = Inherited.
Proof.
  split; [by vm_compute|]. split; [by vm_compute|].
  destruct (label_index_skips_proto ["cats"; "__proto__"; "cats"])
    as (_ & _ & _ & _ & Hproto & _).
  destruct Hproto as (_ & Hnone & Hread).
  - apply list_elem_of_further, list_elem_of_here.
  - split; [exact Hnone|exact Hread].
Defined.



(** C10. An import adds the image-typed files of the batch and nothing else:
    the examples appended are those of the files whose MIME type starts with
    "image/", in the order of the batch, each counted once under its label
    (the counting loop has run over their labels and over nothing else, so
    the number under an ordinary label has grown by the number of the new
    examples that carry it) and shown once in the previews; a file of
    another type adds no example, no count and no preview. A batch without
    any image-typed file leaves the examples, the label counts and the
    previews as they were. *)
Theorem import_adds_images_only (env : Env) (files : list File) (s : State) :
  let s' := onAddFolder env (Some files) s in
  let news := imported env files s in
  trainFiles s' = trainFiles s ++ news ∧
  file <$> news = (if isWeb env then List.filter isImageFile files else []) ∧
  Forall (λ t, file t ∈ files ∧ startsWith "image/" (type (file t)) = true) news ∧
  labelCounts s' = countLabels env (label <$> news) (labelCounts s) ∧
  (∀ lab k, ordinaryLabel lab → numberAt (labelCounts s) lab = Some k →
     numberAt (labelCounts s') lab = Some (k + examplesWith lab news)) ∧
  trainPreviews s'
    = match news with
      | [] => trainPreviews s
      | _ => take 200 ((previewOf <$> news) ++ trainPreviews s)
      end ∧
  (Forall (λ f, isImageFile f = false) files →
     trainFiles s' = trainFiles s ∧ labelCounts s' = labelCounts s ∧
     trainPreviews s' = trainPreviews s).
Proof.
  intros s' news.
  assert (file <$> news = (if isWeb env then List.filter isImageFile files else []))
    as Hfiles.
  { unfold news, imported. destruct (isWeb env); [|done].
    apply trainFilesOf_file. }
  split_and!.
  - apply onAddFolder_trainFiles.
  - done.
  - apply Forall_forall. intros t Ht.
    assert (file t ∈ file <$> news) as Hin
      by (apply list_elem_of_fmap; by exists t).
    rewrite Hfiles in Hin. destruct (isWeb env); [|by apply not_elem_of_nil in Hin].
    apply list_elem_of_In, List.filter_In in Hin as [Hin Himg].
    split; [by apply list_elem_of_In|].
    unfold isImageFile in Himg. by apply andb_true_iff in Himg as [_ ?].
  - apply onAddFolder_labelCounts.
  - intros lab k Hord Hk. unfold s'.
    rewrite onAddFolder_labelCounts, examplesWith_occurrences.
    by apply countLabels_numberAt.
  - unfold s'. rewrite onAddFolder_trainPreviews. by destruct (imported env files s).
  - intros Hnone.
    assert (imported env files s = []) as Hnil.
    { by apply imported_nil, no_image_no_example. }
    unfold s'.
    rewrite onAddFolder_trainFiles, onAddFolder_labelCounts,
      onAddFolder_trainPreviews, Hnil.
    by rewrite app_nil_r.
Qed.

(** A batch holding a text file only, met by a session with two examples. *)
Lemma import_adds_images_only_witness :
  let s' := onAddFolder demoBrowser (Some [notesFile]) trainedSession in
  trainFiles s' = trainFiles trainedSession ∧
  labelCounts s' = labelCounts trainedSession ∧
  trainPreviews s' = trainPreviews trainedSession.
Proof.
  apply (import_adds_images_only demoBrowser [notesFile] trainedSession).
  repeat constructor.
Defined.

(** C8 (what the code does). After every session the count of an ordinary
    label is exact: the dictionary holds the number of training examples
    carrying it, and no entry when there is none, whatever imports, clears
    and other events came before; right after a clear, no example is held
    and the snapshot of the counts is the empty dictionary. Under a label
    that names a member inherited from [Object.prototype] the dictionary
    never holds a number: no entry at all under "__proto__", and a string
    under the others, however many examples carry the label. *)
Theorem counts_fail_for_inherited_names (env : Env) (evs : list Event) :
  let s := run env evs in
  (∀ lab, ordinaryLabel lab →
     snapshotLabelCounts s !! lab
       = countEntry (examplesWith lab (trainFiles s))) ∧
  (∀ lab k, lab ∈ protoMembers → snapshotLabelCounts s !! lab ≠ Some (Num k)) ∧
  snapshotLabelCounts s !! "__proto__" = None ∧
  trainFiles (onClearAll s) = [] ∧
  snapshotLabelCounts (onClearAll s) = ∅.
Proof.
  intros s.
  destruct (run_countsTrack env evs) as (Hexact & Hnum & Hproto & _ & _).
  split_and!; [|done..].
  intros lab Hord. rewrite examplesWith_occurrences. by apply Hexact.
Qed.

(** One image in each of the folders constructor, __proto__ and cats: each
    label has one example; the count of "cats" is 1, the entry of
    "constructor" is a string and "__proto__" has no entry. *)
Lemma counts_fail_for_inherited_names_witness :
  (examplesWith "constructor" (trainFiles sessionWithInheritedNames) = 1 ∧
   snapshotLabelCounts sessionWithInheritedNames !! "constructor"
     = Some (Text "function Object() { [native code] }1")) ∧
  (examplesWith "__proto__" (trainFiles sessionWithInheritedNames) = 1 ∧
   snapshotLabelCounts sessionWithInheritedNames !! "__proto__" = None) ∧
  snapshotLabelCounts sessionWithInheritedNames !! "cats"
    = countEntry (examplesWith "cats" (trainFiles sessionWithInheritedNames)).
Proof.
  destruct (counts_fail_for_inherited_names demoBrowser
              [Mount; AddFolder (Some [constructorFile; protoFile; catFile])])
    as (Hexact & _ & Hproto & _).
  split_and!.
  - by vm_compute.
  - by vm_compute.
  - by vm_compute.
  - exact Hproto.
  - apply Hexact. apply (bool_decide_unpack _). by vm_compute.
Defined.

(** C5 (as the code has it). A clear empties the examples, the previews and
    the label counts, unsets the test image and the prediction, and
    discards the Trained Head in the same step: after it no head is live.
    The base model stays loaded. *)
Theorem clear_discards_head (s : State) :
  let s' := onClearAll s in
  trainFiles s' = [] ∧ labelCounts s' = ∅ ∧ trainPreviews s' = [] ∧
  headModel s' = None ∧ pred s' = None ∧
  testFile s' = None ∧ testPreview s' = None ∧
  net s' = net s.
Proof. fields. Qed.

(** C5 as stated fails: the session holds the head trained on cats and dogs,
    and the clear does not leave it unchanged. *)
Lemma clear_keeps_head_counterexample :
  headModel trainedSession = Some catsDogsHead ∧
  headModel (onClearAll trainedSession) ≠ headModel trainedSession.
Proof. split; [by vm_compute|]. by vm_compute. Qed.

(** C1 (as the code has it). A training run discards the previous Trained
    Head (and the last prediction) before it starts extracting, so a run
    that fails after it has started leaves no head live: the head cell is
    empty, the error is the newest line of the log, and the Dataset Store is
    as before. No half-built head is ever installed: the head cell after a
    run that started holds a model only if the whole [try] went through, and
    that model carries its complete label index. A call that is turned away
    before it starts (no base model, no training image) leaves the previous
    head and prediction untouched. *)
Theorem failed_training_leaves_no_head (env : Env) (s : State) :
  let s' := onTrainHead env s in
  trainFiles s' = trainFiles s ∧ labelCounts s' = labelCounts s ∧
  (net s = None ∨ trainFiles s = [] →
     headModel s' = headModel s ∧ pred s' = pred s) ∧
  (∀ n e, net s = Some n → trainFiles s ≠ [] →
     (trainHeadTry env n (trainFiles s)).2 = inl e →
     headModel s' = None ∧ pred s' = None ∧
     head (messages s') = Some ("[ERROR] train: " +:+ errorText e)) ∧
  (∀ n m, net s = Some n → trainFiles s ≠ [] → headModel s' = Some m →
     (trainHeadTry env n (trainFiles s)).2 = inr m ∧ headBuilt m).
Proof.
  intros s'. destruct (onTrainHead_dataset env s) as (_ & Hfiles & Hcounts & _).
  split_and!; [done|done|apply onTrainHead_refused| |].
  - intros n e Hnet Hne Hfail.
    destruct (onTrainHead_started env s n Hnet Hne) as [Hpred Hhead].
    rewrite Hfail in Hhead. split_and!; [done..|].
    unfold s', onTrainHead. rewrite Hnet.
    destruct (trainFiles s) as [|t rest]; [done|].
    change (length (t :: rest) =? 0) with false. cbv iota.
    destruct (trainHeadTry env n (t :: rest)) as [lines outcome].
    simpl in Hfail. by rewrite Hfail.
  - intros n m Hnet Hne Hm.
    destruct (onTrainHead_started env s n Hnet Hne) as [_ Hhead].
    fold s' in Hhead. rewrite Hm in Hhead.
    destruct (trainHeadTry env n (trainFiles s)) as [lines [e|m']] eqn:Htry;
      simpl in Hhead; [done|].
    injection Hhead as <-. split; [done|]. by eapply trainHeadTry_built.
Qed.

(** A session with a head, retrained after the import of a file that the
    browser cannot decode. *)
Lemma failed_training_leaves_no_head_witness :
  headModel (onTrainHead demoBrowser sessionWithBrokenFile) = None ∧
  pred (onTrainHead demoBrowser sessionWithBrokenFile) = None ∧
  head (messages (onTrainHead demoBrowser sessionWithBrokenFile))
    = Some "[ERROR] train: [object Event]".
Proof.
  destruct (failed_training_leaves_no_head demoBrowser sessionWithBrokenFile)
    as (_ & _ & _ & Hfailed & _).
  apply (Hfailed demoNet (Rejected "[object Event]")).
  - reflexivity.
  - by vm_compute.
  - by vm_compute.
Defined.

(** C1 as stated fails: the session holds the head trained on cats and dogs,
    the next training run fails on a file that cannot be decoded, and the
    head is not as it was before the run. *)
Lemma failed_training_keeps_head_counterexample :
  headModel sessionWithBrokenFile = Some catsDogsHead ∧
  (trainHeadTry demoBrowser demoNet (trainFiles sessionWithBrokenFile)).2
    = inl (Rejected "[object Event]") ∧
  headModel (onTrainHead demoBrowser sessionWithBrokenFile)
    ≠ headModel sessionWithBrokenFile.
Proof. split_and!; by vm_compute. Qed.




(** C3 (as the code has it). A prediction resolves labels positionally
    against the label index captured when its head was trained, not against
    the labels of the current dataset: after any later imports, whatever
    labels they bring, the head of the session and its index are the same,
    the button predicts what it would have predicted before the imports, and
    every prediction is read off the head's index by position: its keys are
    labels of that index, the entry of a label (of any label other than
    "__proto__") is the probability at the position of the label in that
    index, and the top label is the label of that index at the first
    maximum of the probability vector. A clear does not keep the older head:
    it discards it, and the button then predicts nothing until a new head is
    trained. *)
Theorem prediction_uses_frozen_index (env : Env) (evs imports : list Event)
    (h : LayersModel) :
  let s := run env evs in
  let s' := foldl (step env) s imports in
  headModel s = Some h →
  Forall (λ ev, isImportEvent ev = true) imports →
  headModel s' = Some h ∧
  pred (onPredictBtn env s') = pred (onPredictBtn env s) ∧
  (∀ n f p, net s' = Some n → testFile s' = Some f →
     pred (onPredictBtn env s') = Some p →
     ∃ probs best,
       forwardPass env n h f = ok probs ∧
       length probs = length (labelIndexOf h) ∧
       (∀ lab, is_Some (confidences p !! lab) → lab ∈ labelIndexOf h) ∧
       (∀ i lab, labelIndexOf h !! i = Some lab →
          is_Some (probs !! i) ∧
          (lab ≠ "__proto__" → confidences p !! lab = probs !! i)) ∧
       labelIndexOf h !! best = Some (pred_label p) ∧
       firstMaximum probs best) ∧
  headModel (onClearAll s') = None ∧
  pred (onPredictBtn env (onClearAll s')) = None.
Proof.
  intros s s' Hhead Himports.
  destruct (imports_frame env imports s Himports) as (Hnet' & Hhead' & Htest' & Hpred').
  fold s' in Hnet', Hhead', Htest', Hpred'.
  assert (headModel s' = Some h) as Hh by (by rewrite Hhead').
  split_and!.
  - done.
  - by apply onPredictBtn_reads.
  - intros n f p Hnet Htest Hp.
    rewrite (onPredictBtn_pred env s' n h f) in Hp by done.
    destruct (predictTry env n h f) as [e|p'] eqn:Htry; [done|].
    injection Hp as ->.
    destruct (prediction_against_index env n h f p) as
      (probs & best & Hfwd & Hlen & Hdom & Hpos & Htop & Hmax); [|done|].
    { by apply (run_headBuilt env evs). }
    exists probs, best. split_and!; [done|done| |done..].
    intros lab Hlab. by apply Hdom.
  - done.
  - by rewrite onPredictBtn_no_head.
Qed.

(** The head trained on cats and dogs, then the import of a bird: the button
    still answers over cats and dogs. *)
Lemma prediction_uses_frozen_index_witness :
  let s' := foldl (step demoBrowser) trainedSession [AddFolder (Some [birdFile])] in
  label <$> trainFiles s' = ["cats"; "dogs"; "birds"] ∧
  headModel s' = Some catsDogsHead ∧
  pred (onPredictBtn demoBrowser s') = pred (onPredictBtn demoBrowser trainedSession).
Proof.
  split; [by vm_compute|].
  destruct (prediction_uses_frozen_index demoBrowser importAndTrain
              [AddFolder (Some [birdFile])] catsDogsHead)
    as (Hhead & Hpred & _).
  - by vm_compute.
  - repeat constructor.
  - split; [exact Hhead|exact Hpred].
Defined.

(** C3 as stated fails after a clear: the session held the head trained on
    cats and dogs and predicted "dogs" with it; after a clear, the import of
    a bird and a new pick of the test image, the older head is gone and the
    button predicts nothing. *)
Lemma prediction_after_clear_counterexample :
  headModel trainedSession = Some catsDogsHead ∧
  pred_label <$> pred (onPredictBtn demoBrowser trainedSession) = Some "dogs" ∧
  label <$> trainFiles sessionAfterClear = ["birds"] ∧
  testFile sessionAfterClear = Some testImage ∧
  headModel sessionAfterClear = None ∧
  pred (onPredictBtn demoBrowser sessionAfterClear) = None ∧
  head (messages (onPredictBtn demoBrowser sessionAfterClear))
    = Some "Head model is not trained yet. Click 'Train head model' first.".
Proof. split_and!; by vm_compute. Qed.

(** C6. For a head that a session holds, the prediction fails with the error
    of the label-mapping check exactly when the forward pass gave a
    probability vector whose length differs from the size of the head's
    label index; when the lengths are equal the check does not fire and a
    prediction comes out. When it fires, the button leaves no prediction and
    logs the error. *)
Theorem label_mapping_check (env : Env) (evs : list Event) (n : MobileNet)
    (h : LayersModel) (f : File) :
  let s := run env evs in
  net s = Some n → headModel s = Some h → testFile s = Some f →
  (predictTry env n h f = throw LabelMappingInconsistent ↔
     ∃ probs, forwardPass env n h f = ok probs ∧
              length probs ≠ length (labelIndexOf h)) ∧
  (∀ probs, forwardPass env n h f = ok probs →
     length probs = length (labelIndexOf h) →
     ∃ p, predictTry env n h f = ok p) ∧
  (predictTry env n h f = throw LabelMappingInconsistent →
     pred (onPredictBtn env s) = None ∧
     head (messages (onPredictBtn env s))
       = Some "[ERROR] predict: Label mapping is inconsistent with predictions.").
Proof.
  intros s Hnet Hhead Htest.
  destruct (headBuilt_index h (run_headBuilt env evs h Hhead)) as [Hne _].
  split_and!.
  - by apply predictTry_inconsistent.
  - intros probs Hfwd Hlen. rewrite predictTry_forward, Hfwd. simpl.
    assert ((length (labelIndexOf h) =? 0) = false) as ->.
    { apply Nat.eqb_neq. by destruct (labelIndexOf h). }
    rewrite Hlen, Nat.eqb_refl. simpl. eauto.
  - intros Hfail. unfold onPredictBtn. rewrite Hnet, Hhead, Htest, Hfail.
    fields.
Qed.

(** A head fitted on two labels whose forward pass answers three
    probabilities. *)
Lemma label_mapping_check_witness :
  headModel (run mismatchBrowser importAndTrain) = Some threeWayHead ∧
  predictTry mismatchBrowser demoNet threeWayHead testImage
    = throw LabelMappingInconsistent.
Proof.
  split; [by vm_compute|].
  destruct (label_mapping_check mismatchBrowser importAndTrain demoNet
              threeWayHead testImage) as (Hiff & _ & _).
  - reflexivity.
  - by vm_compute.
  - reflexivity.
  - apply Hiff. exists [(1 # 3)%Q; (1 # 3)%Q; (1 # 3)%Q].
    split; [by vm_compute|by vm_compute].
Defined.

(** C7 (what the code does). For a head that a session holds, a prediction
    that succeeds is stored by the button; the labels of the head's index
    are distinct, and the top label is the label at the first maximum of the
    probability vector: no probability is larger, and every earlier one is
    strictly smaller. The confidences hold the entry of every label of the
    index other than "__proto__", the probability at its position, and no
    other key: a label "__proto__" of the index has no entry, also when it
    is the top label. *)
Theorem prediction_entries_skip_proto (env : Env) (evs : list Event)
    (n : MobileNet) (h : LayersModel) (f : File) (p : Pred) :
  let s := run env evs in
  net s = Some n → headModel s = Some h → testFile s = Some f →
  predictTry env n h f = ok p →
  pred (onPredictBtn env s) = Some p ∧
  NoDup (labelIndexOf h) ∧
  ∃ probs best,
    forwardPass env n h f = ok probs ∧
    length probs = length (labelIndexOf h) ∧
    (∀ lab, is_Some (confidences p !! lab) ↔
       lab ∈ labelIndexOf h ∧ lab ≠ "__proto__") ∧
    (∀ i lab, labelIndexOf h !! i = Some lab →
       is_Some (probs !! i) ∧
       (lab ≠ "__proto__" → confidences p !! lab = probs !! i)) ∧
    labelIndexOf h !! best = Some (pred_label p) ∧
    firstMaximum probs best.
Proof.
  intros s Hnet Hhead Htest Htry.
  pose proof (run_headBuilt env evs h Hhead) as Hbuilt.
  split_and!.
  - by rewrite (onPredictBtn_pred env s n h f), Htry.
  - by apply headBuilt_index.
  - by apply prediction_against_index.
Qed.

(** A head trained on the folders __proto__ and cats answers 3/4, 1/4 on the
    test image: the top label is "__proto__", and the confidences hold the
    entry of "cats" only. *)
Lemma prediction_entries_skip_proto_witness :
  headModel protoSession = Some protoHead ∧
  ∃ p, pred (onPredictBtn protoBrowser protoSession) = Some p ∧
       pred_label p = "__proto__" ∧
       confidences p !! "__proto__" = None ∧
       confidences p !! "cats" = Some (1 # 4)%Q ∧
       size (confidences p) = 1.
Proof.
  split; [by vm_compute|].
  exists (mkPred "__proto__"
            (fillConfidences 0 ["__proto__"; "cats"] [(3 # 4)%Q; (1 # 4)%Q] ∅)).
  split; [|by vm_compute].
  apply (prediction_entries_skip_proto protoBrowser
           [Mount; AddFolder (Some [protoFile; catFile]); TrainHead;
            SelectTest (Some testImage)]
           demoNet protoHead testImage).
  - reflexivity.
  - by vm_compute.
  - reflexivity.
  - by vm_compute.
Defined.

(* ========================================================================= *)
(** * Further properties of the component *)
(* ========================================================================= *)

(* ------------------------------------------------------------------------- *)
(** ** Labels of paths *)
(* ------------------------------------------------------------------------- *)

Section PathParts.

Lemma split_slash_slashFree (s : string) :
  Forall (λ part, slashFree part = true) (split_slash s).
Proof.
  induction s as [|c rest IH]; simpl; [by repeat constructor|].
  destruct (Ascii.eqb c "/") eqn:Hc; [by constructor|].
  destruct (split_slash rest) as [|w ws].
  - constructor; [|constructor]. simpl. by rewrite Hc.
  - apply Forall_cons in IH as [Hw Hws]. constructor; [|done].
    simpl. by rewrite Hc.
Qed.

End PathParts.

(** X1. The label derived from a path is never the empty string and holds no
    slash, whatever the path: empty segments (doubled, leading or trailing
    slashes) are dropped before the parent directory is picked. *)
Theorem label_never_empty (rel : string) :
  labelOfPath rel ≠ "" ∧ slashFree (labelOfPath rel) = true.
Proof.
  unfold labelOfPath.
  set (parts := List.filter truthy (split_slash rel)).
  assert (Forall (λ part, part ≠ "" ∧ slashFree part = true) parts) as Hparts.
  { apply Forall_forall. intros part Hin.
    apply list_elem_of_In, List.filter_In in Hin as [Hin Htruthy].
    split; [by destruct part|].
    pose proof (split_slash_slashFree rel) as Hall.
    rewrite Forall_forall in Hall. by apply Hall, list_elem_of_In. }
  case_decide as Hlen; [|done].
  destruct (parts !! (length parts - 2)) as [part|] eqn:Hpart; [|done].
  simpl. rewrite Forall_forall in Hparts. apply Hparts.
  apply list_elem_of_lookup. eauto.
Qed.

(* ------------------------------------------------------------------------- *)
(** ** Previews by label *)
(* ------------------------------------------------------------------------- *)

Section Grouping.

Lemma setFrom_snoc (seen xs : list string) (x : string) :
  setFrom seen (xs ++ [x])
    = if decide (x ∈ setFrom seen xs) then setFrom seen xs
      else setFrom seen xs ++ [x].
Proof.
  revert seen. induction xs as [|y rest IH]; intros seen; simpl.
  - done.
  - case_decide; apply IH.
Qed.

Lemma urisOf_snoc (lab : string) (ps : list Preview) (p : Preview) :
  urisOf lab (ps ++ [p])
    = if decide (preview_label p = lab) then urisOf lab ps ++ [preview_uri p]
      else urisOf lab ps.
Proof.
  unfold urisOf. rewrite List.filter_app, fmap_app. simpl.
  case_decide as Hlab.
  - by rewrite bool_decide_eq_true_2.
  - rewrite bool_decide_eq_false_2 by done. simpl. by rewrite app_nil_r.
Qed.

Lemma urisOf_absent (lab : string) (ps : list Preview) :
  lab ∉ preview_label <$> ps → urisOf lab ps = [].
Proof.
  unfold urisOf. induction ps as [|p rest IH]; simpl; [done|].
  intros [Hne Hrest]%not_elem_of_cons.
  rewrite bool_decide_eq_false_2 by done. by apply IH.
Qed.

(** The entry of a label that is already a key is extended in place. *)
Lemma groupInsert_present (keys : list string) (g : string → list string)
    (lab u : string) :
  NoDup keys → lab ∈ keys →
  groupInsert ((λ l, (l, g l)) <$> keys) lab u
    = (λ l, (l, if decide (l = lab) then g l ++ [u] else g l)) <$> keys.
Proof.
  induction keys as [|k rest IH]; intros Hd Hin; simpl.
  - by apply elem_of_nil in Hin.
  - apply NoDup_cons in Hd as [Hk Hd]. case_decide as Hkl.
    + subst k. f_equal. apply list_fmap_ext. intros i l Hl.
      rewrite decide_False; [done|]. intros ->.
      apply Hk, list_elem_of_lookup. eauto.
    + f_equal. apply IH; [done|].
      apply elem_of_cons in Hin as [->|Hin]; done.
Qed.

(** A new label gets its entry at the end. *)
Lemma groupInsert_absent (keys : list string) (g : string → list string)
    (lab u : string) :
  lab ∉ keys →
  groupInsert ((λ l, (l, g l)) <$> keys) lab u
    = ((λ l, (l, g l)) <$> keys) ++ [(lab, [u])].
Proof.
  induction keys as [|k rest IH]; intros Hnot; simpl; [done|].
  apply not_elem_of_cons in Hnot as [Hne Hnot].
  rewrite decide_False by done. f_equal. by apply IH.
Qed.

Lemma groupInsert_uris (m : list (string * list string)) (lab u : string) :
  concat (snd <$> groupInsert m lab u) ≡ₚ u :: concat (snd <$> m).
Proof.
  induction m as [|[l us] rest IH]; simpl; [done|].
  case_decide; simpl.
  - rewrite <- app_assoc. simpl. symmetry. apply Permutation_middle.
  - rewrite IH. symmetry. apply Permutation_middle.
Qed.

Lemma groupedPreviews_snoc (ps : list Preview) (p : Preview) :
  groupedPreviews (ps ++ [p])
    = groupInsert (groupedPreviews ps) (preview_label p) (preview_uri p).
Proof. unfold groupedPreviews. by rewrite foldl_app. Qed.

End Grouping.

(** X2. The previews are grouped by label without loss of order: the groups
    are the distinct labels of the previews in the order of their first
    occurrence, and the group of a label lists the URLs of exactly the
    previews carrying that label, in the order of the previews; no label has
    two groups and no group is empty. *)
Theorem grouped_previews_by_label (ps : list Preview) :
  groupedPreviews ps
    = (λ lab, (lab, urisOf lab ps)) <$> setFrom [] (preview_label <$> ps) ∧
  NoDup (fst <$> groupedPreviews ps) ∧
  (∀ lab uris, (lab, uris) ∈ groupedPreviews ps →
     lab ∈ preview_label <$> ps ∧ uris ≠ []).
Proof.
  assert (groupedPreviews ps
            = (λ lab, (lab, urisOf lab ps)) <$> setFrom [] (preview_label <$> ps))
    as Heq.
  { induction ps as [|p ps IH] using rev_ind; [done|].
    rewrite groupedPreviews_snoc, IH, fmap_app.
    change (preview_label <$> [p]) with [preview_label p].
    rewrite setFrom_snoc.
    pose proof (setFrom_NoDup [] (preview_label <$> ps) (NoDup_nil_2)) as Hd.
    case_decide as Hin.
    - rewrite groupInsert_present by done.
      apply list_fmap_ext. intros i l Hl.
      rewrite urisOf_snoc. f_equal. by repeat case_decide.
    - rewrite groupInsert_absent by done. rewrite fmap_app. simpl.
      f_equal.
      + apply list_fmap_ext. intros i l Hl. f_equal.
        rewrite urisOf_snoc, decide_False; [done|].
        intros Hlab. apply Hin. rewrite Hlab.
        apply list_elem_of_lookup. eauto.
      + rewrite urisOf_snoc, decide_True by done.
        rewrite urisOf_absent; [done|].
        intros Hlab. apply Hin, setFrom_elem. by right. }
  split_and!; [done| |].
  - rewrite Heq, <- list_fmap_compose.
    assert (∀ keys : list string,
              (fst ∘ (λ lab, (lab, urisOf lab ps))) <$> keys = keys) as ->.
    { induction keys as [|k keys IHkeys]; simpl; [done|]. by f_equal. }
    apply setFrom_NoDup, NoDup_nil_2.
  - intros lab uris Hin. rewrite Heq in Hin.
    apply list_elem_of_fmap in Hin as (l & [= -> ->] & Hl).
    apply setFrom_elem in Hl as [Hl|Hl]; [by apply elem_of_nil in Hl|].
    split; [done|].
    apply list_elem_of_fmap in Hl as (p & -> & Hp).
    unfold urisOf. intros Hnil.
    apply fmap_nil_inv in Hnil.
    assert (p ∈ List.filter (λ q, bool_decide (preview_label q = preview_label p)) ps)
      as Hmem.
    { apply list_elem_of_In, List.filter_In. split; [by apply list_elem_of_In|].
      by apply bool_decide_eq_true_2. }
    rewrite Hnil in Hmem. by apply elem_of_nil in Hmem.
Qed.

(** The previews of a dog, a cat and a second dog. *)
Lemma grouped_previews_by_label_witness :
  groupedPreviews [mkPreview "blob:2" "dogs"; mkPreview "blob:1" "cats";
                   mkPreview "blob:0" "dogs"]
    = [("dogs", ["blob:2"; "blob:0"]); ("cats", ["blob:1"])] ∧
  "cats" ∈ preview_label <$> [mkPreview "blob:2" "dogs"; mkPreview "blob:1" "cats";
                              mkPreview "blob:0" "dogs"] ∧
  ["blob:1"] ≠ [].
Proof.
  split; [by vm_compute|].
  destruct (grouped_previews_by_label
              [mkPreview "blob:2" "dogs"; mkPreview "blob:1" "cats";
               mkPreview "blob:0" "dogs"]) as (_ & _ & Hgroups).
  apply (Hgroups "cats" ["blob:1"]).
  vm_compute. apply list_elem_of_further, list_elem_of_here.
Defined.

(** X3. Grouping neither drops nor repeats a preview: the URLs of all groups
    together are the URLs of the previews, each as often as it occurs, and
    the "(Nothing yet)" placeholder (no group) shows exactly when there is no
    preview. *)
Theorem grouped_previews_complete (ps : list Preview) :
  concat (snd <$> groupedPreviews ps) ≡ₚ preview_uri <$> ps ∧
  (groupedPreviews ps = [] ↔ ps = []).
Proof.
  assert (concat (snd <$> groupedPreviews ps) ≡ₚ preview_uri <$> ps) as Hperm.
  { induction ps as [|p ps IH] using rev_ind; [done|].
    rewrite groupedPreviews_snoc, groupInsert_uris, IH, fmap_app. simpl.
    by rewrite Permutation_cons_append. }
  split; [done|]. split; [|by intros ->].
  intros Hnil. rewrite Hnil in Hperm. simpl in Hperm.
  apply Permutation_nil_l in Hperm. symmetry in Hperm.
  by apply fmap_nil_inv in Hperm.
Qed.

(* ------------------------------------------------------------------------- *)
(** ** Invariants of a session *)
(* ------------------------------------------------------------------------- *)

Section Sessions.

Variable env : Env.

(** What holds at the first render and is kept by every handler holds after
    every session. *)
Lemma session_invariant (P : State → Prop) :
  P initialState →
  (∀ s ev, P s → P (step env s ev)) →
  ∀ evs, P (run env evs).
Proof.
  intros Hinit Hstep evs. unfold run.
  induction evs as [|ev evs IH] using rev_ind; [done|].
  rewrite foldl_app. simpl. by apply Hstep.
Qed.

(** The length of a log that ends with a push. *)
Ltac bounded := simpl in *; rewrite ?length_take; lia.

Lemma step_messages_bounded (s : State) (ev : Event) :
  length (messages s) ≤ 200 → length (messages (step env s ev)) ≤ 200.
Proof.
  intros Hs. destruct ev as [|files| |f| |]; simpl.
  - unfold onMount. destruct (call (tfReady env)); [bounded|].
    destruct (call (mobilenetLoad env)); bounded.
  - unfold onAddFolder. destruct files as [files|]; [|done].
    destruct (isWeb env); simpl; [|bounded].
    destruct (added _ =? 0); bounded.
  - unfold onTrainHead. destruct (net s) as [n|]; [|bounded].
    destruct (length (trainFiles s) =? 0); [bounded|].
    destruct (trainHeadTry env n (trainFiles s)) as [lines [e|m]];
      bounded.
  - unfold onSelectTest. destruct f; bounded.
  - unfold onPredictBtn. destruct (net s) as [n|]; [|bounded].
    destruct (headModel s) as [h|]; [|bounded].
    destruct (testFile s) as [f|]; [|bounded].
    destruct (predictTry env n h f); bounded.
  - bounded.
Qed.

Lemma step_previews_bounded (s : State) (ev : Event) :
  length (trainPreviews s) ≤ 200 →
  length (trainPreviews (step env s ev)) ≤ 200.
Proof.
  intros Hs. destruct ev as [|files| |f| |]; simpl.
  - unfold onMount. destruct (call (tfReady env)); [done|].
    by destruct (call (mobilenetLoad env)).
  - destruct files as [files|]; [|done].
    rewrite onAddFolder_trainPreviews.
    destruct (imported env files s); [done|]. rewrite length_take. lia.
  - by destruct (onTrainHead_dataset env s) as (_ & _ & _ & -> & _).
  - unfold onSelectTest. by destruct f.
  - unfold onPredictBtn. destruct (net s) as [n|]; [|done].
    destruct (headModel s) as [h|]; [|done].
    destruct (testFile s) as [f|]; [|done].
    by destruct (predictTry env n h f).
  - simpl. lia.
Qed.

Lemma step_loading (s : State) (ev : Event) :
  loading s = None → loading (step env s ev) = None.
Proof.
  intros Hs. destruct ev as [|files| |f| |]; simpl.
  - unfold onMount. destruct (call (tfReady env)); [done|].
    by destruct (call (mobilenetLoad env)).
  - unfold onAddFolder. destruct files as [files|]; [|done].
    by destruct (isWeb env).
  - unfold onTrainHead. destruct (net s) as [n|]; [|done].
    destruct (length (trainFiles s) =? 0); [done|].
    by destruct (trainHeadTry env n (trainFiles s)) as [lines [e|m]].
  - unfold onSelectTest. by destruct f.
  - unfold onPredictBtn. destruct (net s) as [n|]; [|done].
    destruct (headModel s) as [h|]; [|done].
    by destruct (testFile s) as [f|].
  - done.
Qed.

End Sessions.

(** X4. The console and the preview strip are bounded: after every session
    the log holds at most 200 lines and at most 200 previews are kept,
    however many messages were pushed and images imported. *)
Theorem log_and_previews_bounded (env : Env) (evs : list Event) :
  length (messages (run env evs)) ≤ 200 ∧
  length (trainPreviews (run env evs)) ≤ 200.
Proof.
  apply (session_invariant env
           (λ s, length (messages s) ≤ 200 ∧ length (trainPreviews s) ≤ 200)).
  - simpl. lia.
  - intros s ev [Hm Hp]. split.
    + by apply step_messages_bounded.
    + by apply step_previews_bounded.
Qed.

(** X5. The busy indicator never sticks: once a handler has run to its end,
    whether it went through, was turned away or failed inside its [try],
    [loading] is null again; so it is null after every session. *)
Theorem loading_cleared_after_every_handler (env : Env) (evs : list Event) :
  loading (run env evs) = None.
Proof.
  apply (session_invariant env (λ s, loading s = None)); [done|].
  intros s ev. apply step_loading.
Qed.

(* ------------------------------------------------------------------------- *)
(** ** The base model and the previews along a session *)
(* ------------------------------------------------------------------------- *)

Section Consistency.

Variable env : Env.

Lemma step_ready_net (s : State) (ev : Event) :
  ev ≠ Mount → ready (step env s ev) = ready s ∧ net (step env s ev) = net s.
Proof.
  intros Hev. destruct ev as [|files| |f| |]; simpl; [done| | | | |fields].
  - unfold onAddFolder. destruct files as [files|]; [|done].
    destruct (isWeb env); simpl; [|fields].
    destruct (added _ =? 0); fields.
  - unfold onTrainHead. destruct (net s) as [n|] eqn:Hnet; [|fields].
    destruct (length (trainFiles s) =? 0); [fields|].
    destruct (trainHeadTry env n (trainFiles s)) as [lines [e|m]]; simpl;
      rewrite pushMsgs_setMessages; fields.
  - unfold onSelectTest. destruct f; fields.
  - unfold onPredictBtn. destruct (net s) as [n|] eqn:Hnet; [|fields].
    destruct (headModel s) as [h|]; [|fields].
    destruct (testFile s) as [f|]; [|fields].
    destruct (predictTry env n h f); fields.
Qed.

(** What the start-up effect leaves, by its three ways out. *)
Lemma onMount_cases (s : State) :
  let s' := onMount env s in
  pred s' = pred s ∧ testFile s' = testFile s ∧
  match tfReady env, mobilenetLoad env with
  | inr _, inr model => ready s' = true ∧ net s' = Some model
  | _, _ => ready s' = ready s ∧ net s' = net s
  end.
Proof.
  simpl. unfold onMount, call, ok, throw.
  destruct (tfReady env) as [text|backend]; [fields|].
  destruct (mobilenetLoad env) as [text|model]; fields.
Qed.

Lemma step_baseModelLoaded (s : State) (ev : Event) :
  baseModelLoaded env s → baseModelLoaded env (step env s ev).
Proof.
  intros [Hready Hnet].
  assert (ev = Mount ∨ ev ≠ Mount) as [->|Hev]
    by (destruct ev; (by left) || (by right)).
  - unfold baseModelLoaded. simpl.
    destruct (onMount_cases s) as (_ & _ & Hcases).
    destruct (tfReady env) as [text|backend];
      [destruct Hcases as [-> ->]; by split|].
    destruct (mobilenetLoad env) as [text|model] eqn:Hload;
      [destruct Hcases as [-> ->]; by split|].
    destruct Hcases as [-> ->]. split; [by split; eauto|].
    intros n [= <-]. eauto.
  - unfold baseModelLoaded.
    destruct (step_ready_net s ev Hev) as [-> ->]. by split.
Qed.

(** The model of a [try] that went through carries the index of the files. *)
Lemma trainHeadTry_index (n : MobileNet) (files : list TrainFile)
    (lines : list string) (m : LayersModel) :
  trainHeadTry env n files = (lines, inr m) →
  labelIndexOf m = labelSetOf (label <$> files).
Proof.
  unfold trainHeadTry.
  destruct (extractLoop _ _ _ _ _ _) as [e|ex]; [done|].
  destruct (featureDim ex) as [d|]; [|done].
  unfold call, ok, throw.
  destruct (tfStack env (xs ex)) as [e|xTrain]; [done|].
  destruct (tfStack env (ys ex)) as [e|yTrain]; [done|].
  destruct (tfFit _ _ _ _ _ _ _) as [epochLines [e|forward]]; [done|].
  simpl. by intros [= _ <-].
Qed.

Lemma step_previewsHeld (s : State) (ev : Event) :
  previewsHeld s → previewsHeld (step env s ev).
Proof.
  intros Hs p. destruct ev as [|files| |f| |]; simpl.
  - unfold onMount. destruct (call (tfReady env)); [apply Hs|].
    destruct (call (mobilenetLoad env)); apply Hs.
  - destruct files as [files|]; [|apply Hs].
    rewrite onAddFolder_trainPreviews, onAddFolder_trainFiles.
    intros Hp.
    assert (p ∈ (previewOf <$> imported env files s) ++ trainPreviews s) as Hin.
    { destruct (imported env files s) as [|t news]; [done|].
      eapply subseteq_take, Hp. }
    apply elem_of_app in Hin as [Hin|Hin].
    + apply list_elem_of_fmap in Hin as (t & -> & Ht).
      exists t. split; [|done]. apply elem_of_app. by right.
    + destruct (Hs p Hin) as (t & Ht & Hpt).
      exists t. split; [|done]. apply elem_of_app. by left.
  - destruct (onTrainHead_dataset env s) as (_ & -> & _ & -> & _). apply Hs.
  - unfold onSelectTest. destruct f; apply Hs.
  - destruct (onPredictBtn_frame env s) as (_ & -> & _).
    unfold onPredictBtn. destruct (net s) as [n|]; [|apply Hs].
    destruct (headModel s) as [h|]; [|apply Hs].
    destruct (testFile s) as [f|]; [|apply Hs].
    destruct (predictTry env n h f); apply Hs.
  - intros Hp. by apply elem_of_nil in Hp.
Qed.

End Consistency.

(** X6. The "Ready" pill tells the truth: after every session, [ready] is set
    exactly when a base model is loaded, and the base model in the state is
    the one that [mobilenet.load] returned after the backend became ready. A
    start-up that failed (the backend or the download rejected) therefore
    leaves every later session without a base model, not ready, with
    training and prediction turned away. *)
Theorem ready_iff_base_model (env : Env) (evs : list Event) :
  let s := run env evs in
  (ready s = true ↔ is_Some (net s)) ∧
  (∀ n, net s = Some n →
     mobilenetLoad env = inr n ∧ ∃ backend, tfReady env = inr backend) ∧
  (net s = None →
     headModel (onTrainHead env s) = headModel s ∧
     pred (onPredictBtn env s) = pred s).
Proof.
  intros s.
  assert (baseModelLoaded env s) as [Hready Hnet].
  { apply (session_invariant env (baseModelLoaded env)).
    - split; [|done]. split; [done|]. by intros [n Hn].
    - intros s0 ev. apply step_baseModelLoaded. }
  split_and!; [done..|].
  intros Hnone. split.
  - apply onTrainHead_refused. by left.
  - unfold onPredictBtn. rewrite Hnone. fields.
Qed.

(** A browser whose download of the base model is rejected. *)
Lemma ready_iff_base_model_witness :
  let offline :=
    mkEnv true (inr "webgl") (inl "Failed to fetch") (fileToImage demoBrowser)
      (tfStack demoBrowser) (tfFit demoBrowser) (tfOneHotOfOther demoBrowser)
      (functionText demoBrowser) in
  let s := run offline importAndTrain in
  net s = None ∧ ready s = false ∧ headModel (onTrainHead offline s) = headModel s.
Proof.
  intros offline s.
  destruct (ready_iff_base_model offline importAndTrain) as (_ & _ & Hrefused).
  split; [by vm_compute|]. split; [by vm_compute|].
  apply Hrefused. by vm_compute.
Defined.

(** X9. No preview is an orphan: after every session, each preview shown is
    the preview (same URL, same label) of a training example that is still
    held. *)
Theorem previews_belong_to_examples (env : Env) (evs : list Event)
    (p : Preview) :
  p ∈ trainPreviews (run env evs) →
  ∃ t, t ∈ trainFiles (run env evs) ∧ previewOf t = p.
Proof.
  revert p. apply (session_invariant env previewsHeld).
  - intros p Hp. by apply elem_of_nil in Hp.
  - intros s ev. apply step_previewsHeld.
Qed.

(** The preview of the cat of the trained session. *)
Lemma previews_belong_to_examples_witness :
  ∃ t, t ∈ trainFiles trainedSession ∧ previewOf t = mkPreview "blob:0" "cats".
Proof.
  apply (previews_belong_to_examples demoBrowser importAndTrain).
  vm_compute. apply list_elem_of_here.
Defined.

(* ------------------------------------------------------------------------- *)
(** ** Imports one after the other, and the badges *)
(* ------------------------------------------------------------------------- *)

Section Batches.

Variable env : Env.

Lemma trainFilesOf_app (c : nat) (l1 l2 : list File) :
  trainFilesOf c (l1 ++ l2)
    = trainFilesOf c l1 ++ trainFilesOf (c + length l1) l2.
Proof.
  revert c. induction l1 as [|f l1 IH]; intros c; simpl.
  - by rewrite Nat.add_0_r.
  - rewrite IH. do 3 f_equal. lia.
Qed.

Lemma onAddFolder_blobCounter (files : list File) (s : State) :
  blobCounter (onAddFolder env (Some files) s)
    = blobCounter s + length (imported env files s).
Proof.
  unfold onAddFolder, imported. destruct (isWeb env); simpl; [|lia].
  rewrite scanFiles_spec. simpl. rewrite trainFilesOf_length.
  by destruct (List.filter isImageFile files).
Qed.

Lemma imported_app (b1 b2 : list File) (s : State) :
  imported env (b1 ++ b2) s
    = imported env b1 s ++ imported env b2 (onAddFolder env (Some b1) s).
Proof.
  unfold imported at 1 3. rewrite onAddFolder_blobCounter.
  unfold imported. destruct (isWeb env); [|done].
  rewrite List.filter_app, trainFilesOf_app. by rewrite !trainFilesOf_length.
Qed.

Lemma examplesWith_positive (lab : string) (files : list TrainFile) :
  0 < examplesWith lab files ↔ lab ∈ label <$> files.
Proof.
  unfold examplesWith. induction files as [|t files IH]; simpl.
  - rewrite elem_of_nil. lia.
  - rewrite elem_of_cons. case_bool_decide as Hlab; simpl.
    + split; [by left|lia].
    + rewrite IH. split; [by right|]. by intros [->|?].
Qed.

End Batches.

(** X10. Importing two batches one after the other builds the same dataset as
    importing them as one batch: the same files under the same labels in
    the same order, and the same label counts. *)
Theorem import_in_two_batches (env : Env) (b1 b2 : list File) (s : State) :
  let joint := onAddFolder env (Some (b1 ++ b2)) s in
  let apart := onAddFolder env (Some b2) (onAddFolder env (Some b1) s) in
  file <$> trainFiles apart = file <$> trainFiles joint ∧
  label <$> trainFiles apart = label <$> trainFiles joint ∧
  labelCounts apart = labelCounts joint.
Proof.
  cbv zeta.
  assert (trainFiles (onAddFolder env (Some b2) (onAddFolder env (Some b1) s))
          = trainFiles (onAddFolder env (Some (b1 ++ b2)) s)) as Hsame.
  { rewrite !onAddFolder_trainFiles, imported_app. by rewrite app_assoc. }
  split_and!.
  - by rewrite Hsame.
  - by rewrite Hsame.
  - rewrite !onAddFolder_labelCounts, imported_app, fmap_app.
    unfold countLabels. by rewrite foldl_app.
Qed.

(** X11. The label badges mirror a dataset of ordinary labels. After every
    session, every badge is the badge of a label of the examples held, and
    the badge of an ordinary label shows the number of examples carrying
    it. When no example held has a label that names a member inherited from
    [Object.prototype], the placeholder "(No training images yet)" shows
    exactly when no example is held; otherwise there is one badge per label
    of the examples held, as many badges as the next training run would
    have classes, and the numbers on the badges add up to the number of
    training images. *)
Theorem badges_mirror_dataset (env : Env) (evs : list Event) :
  let s := run env evs in
  (∀ lab, is_Some (labelCounts s !! lab) → lab ∈ datasetLabels s) ∧
  (∀ lab, ordinaryLabel lab → lab ∈ datasetLabels s →
     labelCounts s !! lab = Some (Num (examplesWith lab (trainFiles s)))) ∧
  (Forall ordinaryLabel (datasetLabels s) →
     (noBadges s = true ↔ trainFiles s = []) ∧
     (∀ lab, is_Some (labelCounts s !! lab) ↔ lab ∈ datasetLabels s) ∧
     size (labelCounts s) = length (labelSetOf (datasetLabels s)) ∧
     totalCount (labelCounts s) = length (trainFiles s)).
Proof.
  intros s.
  destruct (run_countsTrack env evs) as (Hexact & _ & _ & Hkeys & Htotal).
  fold s in Hexact, Hkeys, Htotal.
  assert (∀ lab, ordinaryLabel lab → lab ∈ datasetLabels s →
            labelCounts s !! lab = Some (Num (examplesWith lab (trainFiles s))))
    as Hbadge.
  { intros lab Hord Hin. rewrite (Hexact lab Hord). unfold datasetLabels.
    rewrite <- examplesWith_occurrences.
    apply examplesWith_positive in Hin.
    destruct (examplesWith lab (trainFiles s)); [lia|done]. }
  split_and!; [done|done|]. intros Hall.
  assert (∀ lab, is_Some (labelCounts s !! lab) ↔ lab ∈ datasetLabels s)
    as Hdom.
  { intros lab. split; [apply Hkeys|]. intros Hin.
    rewrite Hbadge; [eauto| |done].
    rewrite Forall_forall in Hall. by apply Hall. }
  assert (totalCount (labelCounts s) = length (trainFiles s)) as Hsum.
  { rewrite Htotal. unfold datasetLabels in *.
    clear -Hall. induction (trainFiles s) as [|t rest IH]; [done|].
    apply Forall_cons in Hall as [Ht Hrest].
    change (label <$> t :: rest) with (label t :: (label <$> rest)).
    cbn [List.filter]. rewrite bool_decide_eq_true_2 by done.
    cbn [length]. f_equal. by apply IH. }
  split_and!; [|done| |done].
  - unfold noBadges. rewrite bool_decide_eq_true, map_size_empty_iff. split.
    + intros Hempty. rewrite Hempty in Hsum.
      destruct (trainFiles s); [done|]. by vm_compute in Hsum.
    + intros Hnil. apply map_eq. intros lab. rewrite lookup_empty.
      apply eq_None_not_Some. intros Hlab%Hkeys.
      unfold datasetLabels in Hlab. rewrite Hnil in Hlab.
      by apply elem_of_nil in Hlab.
  - rewrite <- size_dom.
    assert (dom (labelCounts s) = list_to_set (labelSetOf (datasetLabels s)))
      as ->.
    { apply set_eq. intros lab.
      rewrite elem_of_dom, Hdom, elem_of_list_to_set, labelSetOf_elem. done. }
    apply size_list_to_set, labelSetOf_NoDup.
Qed.

(** The badges of the session that imported a cat and a dog. *)
Lemma badges_mirror_dataset_witness :
  labelCounts trainedSession !! "cats" = Some (Num 1) ∧
  size (labelCounts trainedSession) = 2 ∧
  totalCount (labelCounts trainedSession) = 2.
Proof.
  destruct (badges_mirror_dataset demoBrowser importAndTrain)
    as (_ & Hbadge & Hall).
  split.
  - apply (Hbadge "cats").
    + apply (bool_decide_unpack _). by vm_compute.
    + vm_compute. apply list_elem_of_here.
  - destruct Hall as (_ & _ & Hsize & Hsum).
    + apply (bool_decide_unpack _). by vm_compute.
    + split; [exact Hsize|exact Hsum].
Defined.

(* ------------------------------------------------------------------------- *)
(** ** The extraction loop, read backwards *)
(* ------------------------------------------------------------------------- *)

Section Extraction.

Variable env : Env.
Variable n : MobileNet.

Lemma featureOf_rejected (f : File) (e : error) :
  featureOf env n f = inl e → ∃ text, e = Rejected text.
Proof.
  unfold featureOf, embed1D, reshape, bind, call, ok, throw.
  destruct (fileToImage env f) as [text|img]; [intros [= <-]; eauto|].
  destruct (infer n img) as [text|emb]; [intros [= <-]; eauto|].
  destruct (lastDim emb) as [d|]; [|intros [= <-]; eauto].
  case_decide; [done|intros [= <-]; eauto].
Qed.

(** One turn of the loop, by the extraction of its file. *)
Lemma extractLoop_cons (label2idx : gmap string nat) (numClasses : nat)
    (t : TrainFile) (rest : list TrainFile) (acc : Extracted) :
  extractLoop env n label2idx numClasses (t :: rest) acc
    = (let! feat := featureOf env n (file t) in
       let! y := oneHotOfLabel env label2idx numClasses (label t) in
       extractLoop env n label2idx numClasses rest
         (mkExtracted (xs acc ++ [feat]) (ys acc ++ [y])
            (match featureDim acc with
             | None => dimOf feat
             | Some d => Some d
             end))).
Proof.
  simpl. unfold featureOf, bind.
  by destruct (call (fileToImage env (file t))) as [e|img].
Qed.

(** What a loop that went through has collected. *)
Lemma extractLoop_ok_inv (label2idx : gmap string nat) (numClasses : nat)
    (files : list TrainFile) (acc ex : Extracted) :
  extractLoop env n label2idx numClasses files acc = ok ex →
  ∃ feats onehots,
    Forall2 (λ t feat, featureOf env n (file t) = ok feat) files feats ∧
    Forall2 (λ t y, oneHotOfLabel env label2idx numClasses (label t) = ok y)
      files onehots ∧
    xs ex = xs acc ++ feats ∧ ys ex = ys acc ++ onehots ∧
    featureDim ex = match featureDim acc with
                    | Some d => Some d
                    | None => head feats ≫= dimOf
                    end.
Proof.
  revert acc. induction files as [|t rest IH]; intros acc.
  - simpl. intros [= <-]. exists [], [].
    rewrite !app_nil_r. split_and!; [constructor..|done|done|].
    by destruct (featureDim acc).
  - rewrite extractLoop_cons. unfold bind at 1 2.
    destruct (featureOf env n (file t)) as [e|feat] eqn:Hfeat; [done|].
    destruct (oneHotOfLabel env label2idx numClasses (label t))
      as [e|y] eqn:Hy; [done|].
    intros (feats & onehots & Hfeats & Hhots & Hxs & Hys & Hdim)%IH.
    simpl in Hxs, Hys, Hdim.
    exists (feat :: feats), (y :: onehots).
    split_and!.
    + by constructor.
    + by constructor.
    + by rewrite Hxs, <- app_assoc.
    + by rewrite Hys, <- app_assoc.
    + rewrite Hdim. destruct (featureDim acc) as [d|]; [done|]. simpl.
      destruct (featureOf_dim env n _ _ Hfeat) as [d Hd]. by rewrite Hd.
Qed.

(** The target of a label is built by the runtime or rejected by it. *)
Lemma oneHotOfLabel_rejected (label2idx : gmap string nat) (numClasses : nat)
    (lab : string) (e : error) :
  oneHotOfLabel env label2idx numClasses lab = inl e → ∃ text, e = Rejected text.
Proof.
  unfold oneHotOfLabel, oneHot, bind, ok, throw.
  destruct (numClasses <? 2); [intros [= <-]; eauto|done].
Qed.

(** The target of a label that has an index, with two classes or more: the
    one-hot row of the index, squeezed. *)
Lemma oneHotOfLabel_own (label2idx : gmap string nat) (numClasses : nat)
    (lab : string) (idx : nat) (y : Tensor) :
  readProp label2idx lab = Own idx → 2 ≤ numClasses →
  oneHotOfLabel env label2idx numClasses lab = ok y →
  shape y = [numClasses] ∧
  ∀ j, j < numClasses →
    values y !! j = Some (if decide (j = idx) then 1%Q else 0%Q).
Proof.
  intros Hread Hdepth. unfold oneHotOfLabel, oneHot. rewrite Hread.
  assert ((numClasses <? 2) = false) as -> by (apply Nat.ltb_ge; lia).
  simpl. intros [= <-]. split.
  - simpl. destruct numClasses as [|[|c]]; [lia|lia|done].
  - intros j Hj. simpl. by rewrite list_lookup_fmap, lookup_seq_lt by done.
Qed.

(** The loop itself throws nothing of its own. *)
Lemma extractLoop_rejected (label2idx : gmap string nat) (numClasses : nat)
    (files : list TrainFile) (acc : Extracted) (e : error) :
  extractLoop env n label2idx numClasses files acc = inl e →
  ∃ text, e = Rejected text.
Proof.
  revert acc. induction files as [|t rest IH]; intros acc; [done|].
  rewrite extractLoop_cons. unfold bind at 1 2.
  destruct (featureOf env n (file t)) as [e'|feat] eqn:Hfeat.
  { intros [= <-]. by eapply featureOf_rejected. }
  destruct (oneHotOfLabel env label2idx numClasses (label t))
    as [e'|y] eqn:Hy.
  { intros [= <-]. by eapply oneHotOfLabel_rejected. }
  apply IH.
Qed.

(** The loop stops at the first file whose extraction fails. *)
Lemma extractLoop_stops (label2idx : gmap string nat) (numClasses : nat)
    (good : list TrainFile) (feats : list Tensor) (bad : TrainFile)
    (rest : list TrainFile) (acc : Extracted) (e : error) :
  Forall2 (λ t feat, featureOf env n (file t) = ok feat) good feats →
  2 ≤ numClasses →
  featureOf env n (file bad) = inl e →
  extractLoop env n label2idx numClasses (good ++ bad :: rest) acc = inl e.
Proof.
  intros Hgood Hdepth. revert acc.
  induction Hgood as [|t feat good feats Ht _ IH]; intros acc Hbad.
  - simpl app. rewrite extractLoop_cons, Hbad. done.
  - change ((t :: good) ++ bad :: rest) with (t :: (good ++ bad :: rest)).
    rewrite extractLoop_cons, Ht.
    destruct (oneHotOfLabel_ok env label2idx numClasses (label t) Hdepth)
      as [y Hy].
    rewrite Hy. simpl. by apply IH.
Qed.

End Extraction.

(** X12. One image that cannot be turned into a feature vector aborts the
    whole training run, with the error of that image: the files before it
    are extracted, the files after it are not looked at, and nothing but the
    announcement of the run has been logged by then. (For a dataset with at
    least two labels.) *)
Theorem first_bad_image_aborts_training (env : Env) (n : MobileNet)
    (good : list TrainFile) (feats : list Tensor) (bad : TrainFile)
    (rest : list TrainFile) (e : error) :
  let files := good ++ bad :: rest in
  let labelSet := labelSetOf (label <$> files) in
  Forall2 (λ t feat, featureOf env n (file t) = ok feat) good feats →
  featureOf env n (file bad) = inl e →
  2 ≤ length labelSet →
  trainHeadTry env n files
    = (["Training head model on " +:+ pretty (length files) +:+ " example(s), "
          +:+ pretty (length labelSet) +:+ " class(es)..."],
       inl e).
Proof.
  intros files labelSet Hgood Hbad Hdepth. unfold trainHeadTry.
  fold labelSet. unfold files.
  by rewrite (extractLoop_stops env n (label2idxOf labelSet) (length labelSet)
                good feats bad rest (mkExtracted [] [] None) e).
Qed.

(** A cat, a file without bytes, a dog. *)
Lemma first_bad_image_aborts_training_witness :
  (trainHeadTry demoBrowser demoNet
     [trainFileOf 0 catFile; trainFileOf 1 brokenFile; trainFileOf 2 dogFile]).2
  = inl (Rejected "[object Event]").
Proof.
  refine (f_equal snd
            (first_bad_image_aborts_training demoBrowser demoNet
               [trainFileOf 0 catFile] [mkTensor [2] [2%Q; 1%Q]]
               (trainFileOf 1 brokenFile) [trainFileOf 2 dogFile]
               (Rejected "[object Event]") _ _ _)).
  - repeat constructor.
  - reflexivity.
  - vm_compute. lia.
Defined.

(** X13. A training run that has started fails only by a rejection of one of
    its collaborators (the image decoder, the base model or the tensor
    runtime): with at least one training file, the feature dimension is
    always known after the loop, so "Could not infer feature dimension." is
    never thrown, and neither is the error of the label-mapping check. *)
Theorem training_fails_only_by_rejection (env : Env) (n : MobileNet)
    (files : list TrainFile) (e : error) :
  files ≠ [] →
  (trainHeadTry env n files).2 = inl e →
  ∃ text, e = Rejected text.
Proof.
  intros Hfiles. unfold trainHeadTry.
  destruct (extractLoop _ _ _ _ _ _) as [e'|ex] eqn:Hloop.
  { simpl. intros [= <-]. by eapply extractLoop_rejected. }
  apply extractLoop_ok_inv in Hloop
    as (feats & onehots & Hfeats & _ & _ & _ & Hdim).
  simpl in Hdim.
  destruct Hfeats as [|t feat files feats Ht _]; [done|].
  destruct (featureOf_dim env n _ _ Ht) as [d Hd].
  simpl in Hdim. rewrite Hd in Hdim. rewrite Hdim.
  unfold call, bind, ok, throw.
  destruct (tfStack env (xs ex)) as [text|xTrain]; [intros [= <-]; eauto|].
  destruct (tfStack env (ys ex)) as [text|yTrain]; [intros [= <-]; eauto|].
  destruct (tfFit _ _ _ _ _ _ _) as [epochLines [text|forward]]; simpl;
    [intros [= <-]; eauto|done].
Qed.

(** The run over vectors of two dimensions, which the runtime refuses to
    stack. *)
Lemma training_fails_only_by_rejection_witness :
  ∃ text,
    Rejected "All tensors passed to stack must have matching shapes"
      = Rejected text.
Proof.
  apply (training_fails_only_by_rejection raggedBrowser raggedNet
           (trainFiles raggedSession)).
  - by vm_compute.
  - by vm_compute.
Defined.

(** X14. The targets of a training run are one-hot rows against the label
    index of the run: the loop collects one feature vector and one target
    per training file, in order, and (with at least two classes) the target
    of a file whose label is not "__proto__" has one entry per class, 1 at
    the position of the file's label in the sorted label index and 0
    elsewhere. *)
Theorem targets_are_one_hot (env : Env) (n : MobileNet)
    (files : list TrainFile) (ex : Extracted) :
  let labelSet := labelSetOf (label <$> files) in
  let numClasses := length labelSet in
  extractLoop env n (label2idxOf labelSet) numClasses files
    (mkExtracted [] [] None) = ok ex →
  2 ≤ numClasses →
  length (xs ex) = length files ∧ length (ys ex) = length files ∧
  ∀ i t y, files !! i = Some t → ys ex !! i = Some y →
    label t ≠ "__proto__" →
    shape y = [numClasses] ∧
    ∃ idx, labelSet !! idx = Some (label t) ∧
      ∀ j, j < numClasses →
        values y !! j = Some (if decide (j = idx) then 1%Q else 0%Q).
Proof.
  intros labelSet numClasses Hloop Hclasses.
  apply extractLoop_ok_inv in Hloop
    as (feats & onehots & Hfeats & Hhots & Hxs & Hys & _).
  simpl in Hxs, Hys. rewrite Hxs, Hys.
  split_and!.
  - symmetry. by eapply Forall2_length.
  - symmetry. by eapply Forall2_length.
  - intros i t y Ht Hy Hlab.
    pose proof (Forall2_lookup_lr _ _ _ _ _ _ Hhots Ht Hy) as Htarget.
    destruct (label2idx_defined (label <$> files) (label t))
      as (idx & Hidx & _ & Hread); [|done|].
    { apply list_elem_of_fmap. exists t. split; [done|].
      apply list_elem_of_lookup. by exists i. }
    destruct (oneHotOfLabel_own env _ _ _ idx y Hread Hclasses Htarget)
      as [Hshape Hvalues].
    split; [done|]. by exists idx.
Qed.

(** The targets of the cat and of the dog of the trained session. *)
Lemma targets_are_one_hot_witness :
  ∃ ex,
    extractLoop demoBrowser demoNet (label2idxOf ["cats"; "dogs"]) 2
      (trainFiles trainedSession) (mkExtracted [] [] None) = ok ex ∧
    length (ys ex) = 2.
Proof.
  eexists. split; [by vm_compute|].
  eapply (targets_are_one_hot demoBrowser demoNet (trainFiles trainedSession)).
  - by vm_compute.
  - vm_compute. lia.
Defined.

(* ------------------------------------------------------------------------- *)
(** ** Prediction: failures, the top label and the pills *)
(* ------------------------------------------------------------------------- *)

(** X15. A prediction that fails inside its [try], for whatever reason (the
    test image cannot be decoded, the base model or the head rejects, the
    label mapping is inconsistent), logs "[ERROR] predict: " with the text
    of the error as the newest line and leaves no prediction on screen, not
    even the previous one; the head, the test image and the dataset are as
    before, and the busy indicator is off. *)
Theorem failed_prediction_is_logged (env : Env) (s : State) (n : MobileNet)
    (h : LayersModel) (f : File) (e : error) :
  net s = Some n → headModel s = Some h → testFile s = Some f →
  predictTry env n h f = inl e →
  let s' := onPredictBtn env s in
  pred s' = None ∧
  head (messages s') = Some ("[ERROR] predict: " +:+ errorText e) ∧
  loading s' = None ∧
  headModel s' = Some h ∧ testFile s' = Some f ∧
  trainFiles s' = trainFiles s ∧ labelCounts s' = labelCounts s.
Proof.
  intros Hnet Hhead Htest Hfail. simpl. unfold onPredictBtn.
  rewrite Hnet, Hhead, Htest, Hfail. fields.
Qed.

(** The trained session, with a prediction on screen, after a file that
    cannot be decoded was picked as the test image. *)
Lemma failed_prediction_is_logged_witness :
  let s := setPred (pred (onPredictBtn demoBrowser trainedSession))
             (setTestFile (Some brokenFile) trainedSession) in
  is_Some (pred s) ∧
  pred (onPredictBtn demoBrowser s) = None ∧
  head (messages (onPredictBtn demoBrowser s))
    = Some "[ERROR] predict: [object Event]".
Proof.
  intros s. split; [vm_compute; eauto|].
  destruct (failed_prediction_is_logged demoBrowser s demoNet catsDogsHead
              brokenFile (Rejected "[object Event]")) as (Hpred & Hlog & _).
  - reflexivity.
  - by vm_compute.
  - reflexivity.
  - by vm_compute.
  - split; [exact Hpred|exact Hlog].
Defined.

(** X16. The top label of a prediction has the largest confidence: for a head
    that a session holds, no label has a larger confidence than the
    probability of the top label of a prediction that succeeded, and the top
    label, when it is not "__proto__", is a key of the confidences with
    that probability. *)
Theorem top_label_has_largest_confidence (env : Env) (evs : list Event)
    (n : MobileNet) (h : LayersModel) (f : File) (p : Pred) :
  headModel (run env evs) = Some h →
  predictTry env n h f = ok p →
  ∃ probs best top,
    forwardPass env n h f = ok probs ∧
    labelIndexOf h !! best = Some (pred_label p) ∧
    probs !! best = Some top ∧
    (pred_label p ≠ "__proto__" →
       confidences p !! pred_label p = Some top) ∧
    ∀ lab v, confidences p !! lab = Some v → (v <= top)%Q.
Proof.
  intros Hhead Htry.
  destruct (prediction_against_index env n h f p) as
    (probs & best & Hfwd & _ & Hdom & Hpos & Hbest & top & Htop & Hmax & _);
    [by eapply run_headBuilt|done|].
  exists probs, best, top. split_and!; [done..| |].
  - intros Hlab. destruct (Hpos best (pred_label p) Hbest) as [_ ->]; done.
  - intros lab v Hv.
    assert (lab ∈ labelIndexOf h ∧ lab ≠ "__proto__") as [Hlab Hne]
      by (apply Hdom; eauto).
    apply list_elem_of_lookup in Hlab as [i Hi].
    destruct (Hpos i lab Hi) as [_ Hconf]. rewrite Hv in Hconf.
    apply (Hmax i). by rewrite Hconf.
Qed.

(** The prediction of the trained session: "dogs", at 3/4. *)
Lemma top_label_has_largest_confidence_witness :
  ∃ probs best top,
    forwardPass demoBrowser demoNet catsDogsHead testImage = ok probs ∧
    labelIndexOf catsDogsHead !! best = Some "dogs" ∧
    probs !! best = Some top ∧
    ("dogs" ≠ "__proto__" →
       fillConfidences 0 ["cats"; "dogs"] [(1 # 4)%Q; (3 # 4)%Q] ∅ !! "dogs"
         = Some top) ∧
    ∀ lab v,
      fillConfidences 0 ["cats"; "dogs"] [(1 # 4)%Q; (3 # 4)%Q] ∅ !! lab
        = Some v →
      (v <= top)%Q.
Proof.
  apply (top_label_has_largest_confidence demoBrowser importAndTrain demoNet
           catsDogsHead testImage
           (mkPred "dogs" (fillConfidences 0 ["cats"; "dogs"]
                             [(1 # 4)%Q; (3 # 4)%Q] ∅))).
  - by vm_compute.
  - by vm_compute.
Defined.

Section Pills.

Lemma insertDesc_Permutation (x : string * Q) (l : list (string * Q)) :
  insertDesc x l ≡ₚ x :: l.
Proof.
  induction l as [|y rest IH]; simpl; [done|].
  destruct (Qle_bool (snd y) (snd x)); [done|].
  rewrite IH. apply Permutation_swap.
Qed.

Lemma sortDesc_Permutation (l : list (string * Q)) : sortDesc l ≡ₚ l.
Proof.
  induction l as [|x rest IH]; simpl; [done|].
  by rewrite insertDesc_Permutation, IH.
Qed.

Lemma pillOrder_trans (a b c : string * Q) :
  pillOrder a b → pillOrder b c → pillOrder a c.
Proof. unfold pillOrder. intros Hab Hbc. by eapply Qle_trans. Qed.

Lemma insertDesc_sorted (x : string * Q) (l : list (string * Q)) :
  StronglySorted pillOrder l → StronglySorted pillOrder (insertDesc x l).
Proof.
  induction 1 as [|y rest Hrest IH Hy]; simpl.
  - repeat constructor.
  - destruct (Qle_bool (snd y) (snd x)) eqn:Hcmp.
    + apply Qle_bool_iff in Hcmp.
      constructor; [by constructor|].
      constructor; [done|].
      eapply Forall_impl; [exact Hy|].
      intros z Hz. by apply (pillOrder_trans x y z).
    + assert (pillOrder y x) as Hyx.
      { unfold pillOrder. apply Qlt_le_weak, Qnot_le_lt.
        intros Hle. apply Qle_bool_iff in Hle. congruence. }
      constructor; [done|].
      rewrite insertDesc_Permutation. by constructor.
Qed.

Lemma sortDesc_sorted (l : list (string * Q)) :
  StronglySorted pillOrder (sortDesc l).
Proof.
  induction l as [|x rest IH]; simpl; [constructor|].
  by apply insertDesc_sorted.
Qed.

End Pills.

(** X17. The confidence pills show the five best labels: whatever the order
    in which the engine lists the entries of the confidences, the pills are
    the min(5, number of labels) entries of largest confidence, in
    descending order; each pill is an entry of the prediction, no label has
    two pills, and no label left out has a larger confidence than a label
    shown. *)
Theorem pills_are_the_five_best (conf : gmap string Q)
    (entries : list (string * Q)) :
  entries ≡ₚ map_to_list conf →
  let shown := shownConfidences entries in
  length shown = 5 `min` size conf ∧
  (∀ k v, (k, v) ∈ shown → conf !! k = Some v) ∧
  NoDup (fst <$> shown) ∧
  StronglySorted pillOrder shown ∧
  (∀ k v k' v', (k, v) ∈ shown → conf !! k' = Some v' →
     k' ∉ fst <$> shown → (v' <= v)%Q).
Proof.
  intros Hentries shown. unfold shownConfidences in shown.
  assert (sortDesc entries ≡ₚ map_to_list conf) as Hperm
    by (etrans; [apply sortDesc_Permutation|done]).
  pose proof (sortDesc_sorted entries) as Hsorted.
  set (sorted := sortDesc entries) in *.
  split_and!.
  - unfold shown. by rewrite length_take, Hperm, length_map_to_list.
  - intros k v Hin. apply elem_of_map_to_list. rewrite <- Hperm.
    by eapply subseteq_take.
  - unfold shown. rewrite fmap_take.
    apply (sublist_NoDup _ (fst <$> sorted)); [|apply sublist_take].
    rewrite Hperm. apply NoDup_fst_map_to_list.
  - rewrite <- (take_drop 5 sorted) in Hsorted.
    by apply StronglySorted_app_1_l in Hsorted.
  - intros k v k' v' Hin Hconf Hout.
    assert ((k', v') ∈ sorted) as Hmem.
    { rewrite Hperm. by apply elem_of_map_to_list. }
    rewrite <- (take_drop 5 sorted) in Hmem, Hsorted.
    apply elem_of_app in Hmem as [Hmem|Hmem].
    + exfalso. apply Hout. apply list_elem_of_fmap. by exists (k', v').
    + by apply (StronglySorted_app_1_elem_of pillOrder _ _ (k, v) (k', v')
                  Hsorted).
Qed.

(** The two confidences of the prediction of the trained session. *)
Lemma pills_are_the_five_best_witness :
  shownConfidences (map_to_list ({[ "cats" := (1 # 4)%Q ]} ∪ {[ "dogs" := (3 # 4)%Q ]}
                                  : gmap string Q))
    = [("dogs", (3 # 4)%Q); ("cats", (1 # 4)%Q)] ∧
  length (shownConfidences
            (map_to_list ({[ "cats" := (1 # 4)%Q ]} ∪ {[ "dogs" := (3 # 4)%Q ]}
                            : gmap string Q)))
    = 5 `min` size ({[ "cats" := (1 # 4)%Q ]} ∪ {[ "dogs" := (3 # 4)%Q ]}
                      : gmap string Q).
Proof.
  split; [by vm_compute|].
  by apply (pills_are_the_five_best
              ({[ "cats" := (1 # 4)%Q ]} ∪ {[ "dogs" := (3 # 4)%Q ]})).
Defined.

(** X18. Training and prediction see the same feature vector: the forward
    pass of a prediction runs the head on exactly the values that the
    training loop would extract from the same file, under the shape [1, D]
    in place of [D], and it fails before reaching the head on exactly the
    files on which the extraction of the training loop fails, with the same
    error. *)
Theorem prediction_extracts_like_training (env : Env) (n : MobileNet)
    (h : LayersModel) (f : File) :
  forwardPass env n h f
    = (let! feat := featureOf env n f in
       let! probsTensor :=
         call (predict h (mkTensor (1 :: shape feat) (values feat))) in
       ok (values probsTensor)).
Proof.
  unfold forwardPass, featureOf, embed1D, embed2D, reshape, bind, call, ok,
    throw.
  destruct (fileToImage env f) as [text|img]; [done|].
  destruct (infer n img) as [text|emb]; [done|].
  destruct (lastDim emb) as [d|]; [|done].
  unfold sizeOfShape. simpl.
  repeat case_decide; try done; lia.
Qed.

(* ------------------------------------------------------------------------- *)
(** ** Time stamps *)
(* ------------------------------------------------------------------------- *)

Section Stamps.

Lemma twoDigits_read (k : nat) :
  k < 100 → readTwoDigits (padStart2 (pretty k)) = Some k.
Proof.
  intros Hk.
  do 100 (destruct k as [|k]; [by vm_compute|]).
  lia.
Qed.

Lemma readTwoDigits_shape (s : string) (k : nat) :
  readTwoDigits s = Some k → ∃ a b, s = String a (String b EmptyString).
Proof.
  destruct s as [|a [|b [|c s]]]; simpl; try done. eauto.
Qed.

Lemma twoDigits_shape (k : nat) :
  k < 100 →
  ∃ a b, padStart2 (pretty k) = String a (String b EmptyString) ∧
         readTwoDigits (String a (String b EmptyString)) = Some k.
Proof.
  intros Hk. pose proof (twoDigits_read k Hk) as Hread.
  destruct (readTwoDigits_shape _ _ Hread) as (a & b & Hs).
  exists a, b. split; [done|]. by rewrite <- Hs.
Qed.

End Stamps.

(** X19. The time stamp of a log line has a fixed width and tells the time
    apart: for a clock reading within a day, [logTime] gives eight
    characters, "HH:MM:SS" with the colons at positions 2 and 5 (one-digit
    readings are padded with a zero), and two different readings never give
    the same stamp. *)
Theorem log_time_fixed_width (d : Clock) :
  getHours d < 24 → getMinutes d < 60 → getSeconds d < 60 →
  String.length (logTime d) = 8 ∧
  String.get 2 (logTime d) = Some ":"%char ∧
  String.get 5 (logTime d) = Some ":"%char ∧
  (∀ d', getHours d' < 24 → getMinutes d' < 60 → getSeconds d' < 60 →
     logTime d' = logTime d → d' = d).
Proof.
  intros Hh Hm Hs. unfold logTime.
  destruct (twoDigits_shape (getHours d)) as (h1 & h2 & -> & Hrh); [lia|].
  destruct (twoDigits_shape (getMinutes d)) as (m1 & m2 & -> & Hrm); [lia|].
  destruct (twoDigits_shape (getSeconds d)) as (s1 & s2 & -> & Hrs); [lia|].
  split_and!; [reflexivity..|].
  intros d' Hh' Hm' Hs'.
  destruct (twoDigits_shape (getHours d')) as (h1' & h2' & -> & Hrh'); [lia|].
  destruct (twoDigits_shape (getMinutes d')) as (m1' & m2' & -> & Hrm'); [lia|].
  destruct (twoDigits_shape (getSeconds d')) as (s1' & s2' & -> & Hrs'); [lia|].
  intros Heq. lazy [String.append] in Heq.
  injection Heq as -> -> -> -> -> ->.
  rewrite Hrh in Hrh'. rewrite Hrm in Hrm'. rewrite Hrs in Hrs'.
  destruct d as [hd md sd], d' as [hd' md' sd']. simpl in *.
  by simplify_eq.
Qed.

(** Five past nine in the morning, and seven seconds. *)
Lemma log_time_fixed_width_witness :
  logTime (mkClock 9 5 7) = "09:05:07" ∧
  String.length (logTime (mkClock 9 5 7)) = 8.
Proof.
  split; [by vm_compute|].
  apply (log_time_fixed_width (mkClock 9 5 7)); simpl; lia.
Defined.

(* ------------------------------------------------------------------------- *)
(** ** The console, and a training run that goes through *)
(* ------------------------------------------------------------------------- *)

(** X20. Pushing lines one by one is prepending them all and cutting once:
    on a log within its bound, after a series of [pushMsg] the console shows
    the lines pushed, the newest first, followed by the older lines, and
    only the oldest lines beyond the 200th are lost. *)
Theorem pushed_lines_newest_first (lines : list string) (s : State) :
  length (messages s) ≤ 200 →
  messages (pushMsgs lines s) = take 200 (reverse lines ++ messages s).
Proof.
  intros Hbound. rewrite pushMsgs_setMessages. simpl.
  induction lines as [|line lines IH] using rev_ind.
  - simpl. by rewrite take_ge.
  - rewrite foldl_app, reverse_app. simpl. rewrite IH.
    change (take 200 (line :: take 200 (reverse lines ++ messages s)))
      with (line :: take 199 (take 200 (reverse lines ++ messages s))).
    rewrite take_take. by replace (199 `min` 200) with 199 by lia.
Qed.

(** Three lines pushed on the log of the trained session. *)
Lemma pushed_lines_newest_first_witness :
  take 3 (messages (pushMsgs ["one"; "two"; "three"] trainedSession))
    = ["three"; "two"; "one"].
Proof.
  rewrite (pushed_lines_newest_first ["one"; "two"; "three"] trainedSession).
  - by vm_compute.
  - vm_compute. lia.
Defined.

(** X21. A training run that goes through installs a head for exactly the
    labels of the dataset: the label index of the new head is the sorted
    list of the distinct labels of the training examples held, its
    [__label2idx] is the dictionary built from that list, in which the label
    of every training example (other than "__proto__") has its position as
    index; the last prediction is gone, the newest log line says that
    training finished, and the dataset is as before. *)
Theorem successful_training_installs_head (env : Env) (s : State)
    (n : MobileNet) (lines : list string) (m : LayersModel) :
  net s = Some n → trainFiles s ≠ [] →
  trainHeadTry env n (trainFiles s) = (lines, inr m) →
  let s' := onTrainHead env s in
  headModel s' = Some m ∧ pred s' = None ∧
  labelIndexOf m = labelSetOf (datasetLabels s) ∧
  __label2idx m = Some (label2idxOf (labelIndexOf m)) ∧
  (∀ t, t ∈ trainFiles s → label t ≠ "__proto__" →
     ∃ idx, label2idxOf (labelIndexOf m) !! label t = Some idx ∧
            labelIndexOf m !! idx = Some (label t)) ∧
  head (messages s') = Some "Training finished. You can now run predictions." ∧
  trainFiles s' = trainFiles s ∧ labelCounts s' = labelCounts s.
Proof.
  intros Hnet Hfiles Htry s'.
  destruct (onTrainHead_started env s n Hnet Hfiles) as [Hpred Hhead].
  rewrite Htry in Hhead. simpl in Hhead.
  destruct (onTrainHead_dataset env s) as (_ & Hsame & Hcounts & _).
  pose proof (trainHeadTry_index env n _ _ _ Htry) as Hindex.
  destruct (trainHeadTry_built env n _ _ _ Hfiles Htry)
    as (labelSet & Hidx & Hl2i & _ & Hd & _).
  assert (labelIndexOf m = labelSet) as Hls
    by (unfold labelIndexOf; by rewrite Hidx).
  split_and!; [done|done|done| | | |done|done].
  - by rewrite Hls.
  - intros t Ht Hlab.
    destruct (label2idx_defined (label <$> trainFiles s) (label t))
      as (idx & Hpos & Hi & _); [|done|].
    { apply list_elem_of_fmap. by exists t. }
    rewrite Hindex. by exists idx.
  - unfold s', onTrainHead. rewrite Hnet.
    destruct (trainFiles s) as [|t rest]; [done|].
    change (length (t :: rest) =? 0) with false. cbv iota.
    by rewrite Htry.
Qed.

(** The training run of the session on a cat and a dog. *)
Lemma successful_training_installs_head_witness :
  let s := run demoBrowser [Mount; AddFolder (Some [catFile; notesFile; dogFile])] in
  headModel (onTrainHead demoBrowser s) = Some catsDogsHead ∧
  pred (onTrainHead demoBrowser s) = None ∧
  labelIndexOf catsDogsHead = labelSetOf (datasetLabels s).
Proof.
  intros s.
  destruct (successful_training_installs_head demoBrowser s demoNet
              ["Training head model on 2 example(s), 2 class(es)..."]
              catsDogsHead) as (Hhead & Hpred & Hindex & _).
  - reflexivity.
  - by vm_compute.
  - by vm_compute.
  - split_and!; [exact Hhead|exact Hpred|exact Hindex].
Defined.

(* ------------------------------------------------------------------------- *)
(** ** A dataset with one label *)
(* ------------------------------------------------------------------------- *)

Section OneLabel.

Lemma labelSetOf_one_label (lab : string) (labels : list string) :
  Forall (λ l, l = lab) labels → labelSetOf (lab :: labels) = [lab].
Proof.
  intros Hall. rewrite <- (labelSetOf_fixed [lab]).
  - apply labelSetOf_same_set. intros l. split.
    + intros ->%list_elem_of_singleton. apply list_elem_of_here.
    + intros [->|Hin]%elem_of_cons; [apply list_elem_of_here|].
      rewrite Forall_forall in Hall. rewrite (Hall l Hin).
      apply list_elem_of_here.
  - repeat constructor.
  - apply NoDup_singleton.
Qed.

End OneLabel.

(** X22. A head cannot be trained on one class: when every training example
    carries the same label, the run fails at the first example, once its
    feature vector is extracted, with the error of [tf.oneHot] on a depth
    below 2; nothing but the announcement of the run has been logged, and no
    head is installed. *)
Theorem one_label_training_fails (env : Env) (s : State) (n : MobileNet)
    (t : TrainFile) (rest : list TrainFile) (feat : Tensor) :
  net s = Some n → trainFiles s = t :: rest →
  Forall (λ u, label u = label t) rest →
  featureOf env n (file t) = ok feat →
  trainHeadTry env n (trainFiles s)
    = (["Training head model on " +:+ pretty (length (trainFiles s))
          +:+ " example(s), 1 class(es)..."],
       inl (Rejected "Error in oneHot: depth must be >=2, but it is 1")) ∧
  headModel (onTrainHead env s) = None ∧
  head (messages (onTrainHead env s))
    = Some "[ERROR] train: Error in oneHot: depth must be >=2, but it is 1".
Proof.
  intros Hnet Hfiles Hsame Hfeat.
  assert (trainHeadTry env n (trainFiles s)
          = (["Training head model on " +:+ pretty (length (trainFiles s))
                +:+ " example(s), 1 class(es)..."],
             inl (Rejected "Error in oneHot: depth must be >=2, but it is 1")))
    as Htry.
  { rewrite Hfiles. unfold trainHeadTry.
    change (label <$> t :: rest) with (label t :: (label <$> rest)).
    rewrite labelSetOf_one_label by by apply Forall_fmap.
    by rewrite extractLoop_cons, Hfeat. }
  split; [done|].
  destruct (onTrainHead_started env s n Hnet) as [_ Hhead];
    [by rewrite Hfiles|].
  rewrite Htry in Hhead. split; [done|].
  unfold onTrainHead. rewrite Hnet, Htry, Hfiles. fields.
Qed.

(** Two cats and no other label. *)
Lemma one_label_training_fails_witness :
  let s := run demoBrowser [Mount; AddFolder (Some [catFile; catFile])] in
  headModel (onTrainHead demoBrowser s) = None ∧
  head (messages (onTrainHead demoBrowser s))
    = Some "[ERROR] train: Error in oneHot: depth must be >=2, but it is 1".
Proof.
  intros s.
  destruct (one_label_training_fails demoBrowser s demoNet
              (trainFileOf 0 catFile) [trainFileOf 1 catFile]
              (mkTensor [2] [2%Q; 1%Q])) as (_ & Hhead & Hlog).
  - reflexivity.
  - by vm_compute.
  - repeat constructor.
  - reflexivity.
  - split; [exact Hhead|exact Hlog].
Defined.
